(** * LImA bootstrap script: option resolution and submodule walk

    A shallow embedding of [scripts/bootstrap.py]: the [Config] option
    store, the [CMakeOptions] translator that builds the [cmake] command
    lines, and the [GitHelper] walk over git submodules, followed by the
    properties established about them.

    Modelling conventions.
    - A Python [str] is a [string] of 8-bit characters; the case functions
      and [strip] act on the ASCII range.
    - A Python value stored in an option is a [pyval]: [bool], [int] or
      [str].
    - A [dict] is an association list kept in iteration order, which is
      insertion order; assigning to an existing key keeps its position.
    - A raised exception is a value of [exn]; [SystemExit] is kept apart
      because [except Exception] does not catch it.
    - [print] output is not part of the model; the commands handed to
      [os.system] are, as a log.
    - The lines read from a pipe are strings, and [os.path] is
      [posixpath]. *)

From Stdlib Require Import ZArith String Ascii List Bool Lia.
From Stdlib Require Import Decimal DecimalString.
From Stdlib Require DecimalPos.
Import ListNotations.

Open Scope string_scope.
Open Scope list_scope.

(* ====================================================================== *)
(** ** Python strings *)
(* ====================================================================== *)

Module Str.

Fixpoint map (f : ascii -> ascii) (s : string) : string :=
  match s with
  | EmptyString => EmptyString
  | String c s' => String (f c) (map f s')
  end.

Definition in_range (lo hi : N) (c : ascii) : bool :=
  (N.leb lo (N_of_ascii c) && N.leb (N_of_ascii c) hi)%bool.

(** [str.upper()] and [str.lower()] on the ASCII letters. *)
Definition upper_ascii (c : ascii) : ascii :=
  if in_range 97 122 c then ascii_of_N (N_of_ascii c - 32) else c.

Definition lower_ascii (c : ascii) : ascii :=
  if in_range 65 90 c then ascii_of_N (N_of_ascii c + 32) else c.

Definition upper : string -> string := map upper_ascii.
Definition lower : string -> string := map lower_ascii.

(** [x.replace(a, b)] for one-character [a] and [b]. *)
Definition replace (a b : ascii) : string -> string :=
  map (fun c => if Ascii.eqb c a then b else c).

(** [c in s] for a one-character [c]. *)
Fixpoint contains (c : ascii) (s : string) : bool :=
  match s with
  | EmptyString => false
  | String d s' => (Ascii.eqb d c || contains c s')%bool
  end.

(** [s.startswith(p)]. *)
Fixpoint startswith (p s : string) : bool :=
  match p, s with
  | EmptyString, _ => true
  | String _ _, EmptyString => false
  | String a p', String b s' => (Ascii.eqb a b && startswith p' s')%bool
  end.

(** [s[:n]] and [s[n:]] for [n >= 0]. *)
Fixpoint take (n : nat) (s : string) : string :=
  match n, s with
  | S n', String c s' => String c (take n' s')
  | _, _ => EmptyString
  end.

Fixpoint drop (n : nat) (s : string) : string :=
  match n, s with
  | S n', String _ s' => drop n' s'
  | _, _ => s
  end.

(** [s[-1]], when [s] is not empty. *)
Fixpoint last (s : string) : option ascii :=
  match s with
  | EmptyString => None
  | String c EmptyString => Some c
  | String _ s' => last s'
  end.

(** [s.find(sub)]: the lowest index where [sub] starts, if any. *)
Fixpoint find (sub s : string) : option nat :=
  if startswith sub s then Some 0
  else match s with
       | EmptyString => None
       | String _ s' => option_map S (find sub s')
       end.

(** [s.split(sep)] for a non-empty [sep]: cut at the occurrences of
    [sep] found from left to right, each search starting after the
    previous occurrence.  The first argument bounds the number of cuts;
    [length s] is always enough. *)
Fixpoint split_upto (n : nat) (sep s : string) : list string :=
  match find sep s with
  | None => [s]
  | Some i =>
      match n with
      | O => [s]
      | S n' => take i s :: split_upto n' sep (drop (i + String.length sep) s)
      end
  end.

Definition split (sep s : string) : list string :=
  split_upto (String.length s) sep s.

(** [sep.join(l)]. *)
Fixpoint join (sep : string) (l : list string) : string :=
  match l with
  | [] => EmptyString
  | [x] => x
  | x :: l' => (x ++ sep ++ join sep l')%string
  end.

(** Whitespace removed by [str.strip()]: space, tab, newline, vertical
    tab, form feed and carriage return. *)
Definition isspace (c : ascii) : bool :=
  (in_range 9 13 c || Ascii.eqb c " ")%bool.

Fixpoint lstrip (s : string) : string :=
  match s with
  | EmptyString => EmptyString
  | String c s' => if isspace c then lstrip s' else s
  end.

Fixpoint rstrip (s : string) : string :=
  match s with
  | EmptyString => EmptyString
  | String c s' =>
      match rstrip s' with
      | EmptyString => if isspace c then EmptyString else String c EmptyString
      | r => String c r
      end
  end.

Definition strip (s : string) : string := rstrip (lstrip s).

Definition is_digit (c : ascii) : bool := in_range 48 57 c.

Fixpoint all (p : ascii -> bool) (s : string) : bool :=
  match s with
  | EmptyString => true
  | String c s' => (p c && all p s')%bool
  end.

(** [s.isdigit()]: at least one character, and digits only. *)
Definition isdigit (s : string) : bool :=
  match s with
  | EmptyString => false
  | _ => all is_digit s
  end.

(** [int(s)] for a string of decimal digits. *)
Fixpoint int_acc (acc : Z) (s : string) : Z :=
  match s with
  | EmptyString => acc
  | String c s' => int_acc (10 * acc + (Z.of_N (N_of_ascii c) - 48)) s'
  end.

Definition to_int (s : string) : Z := int_acc 0 s.

(** [str(z)] for an integer. *)
Definition of_int (z : Z) : string := NilZero.string_of_int (Z.to_int z).

(** [s.split()] with no separator: the maximal runs of characters that
    are not whitespace; [cur] is the run being read. *)
Fixpoint tokens (cur s : string) : list string :=
  match s with
  | EmptyString => if String.eqb cur "" then [] else [cur]
  | String c s' =>
      if isspace c
      then (if String.eqb cur "" then tokens "" s' else cur :: tokens "" s')
      else tokens (cur ++ String c EmptyString)%string s'
  end.

Definition split_ws (s : string) : list string := tokens "" s.

(** Number of characters of [s] equal to [c]. *)
Fixpoint count (c : ascii) (s : string) : nat :=
  match s with
  | EmptyString => O
  | String d s' => (if Ascii.eqb d c then 1 else 0) + count c s'
  end.

End Str.

(* ====================================================================== *)
(** ** Python values, exceptions *)
(* ====================================================================== *)

Inductive pyval : Type :=
| VBool (b : bool)
| VInt (z : Z)
| VStr (s : string).

(** Truth value of an object in a condition. *)
Definition truthy (v : pyval) : bool :=
  match v with
  | VBool b => b
  | VInt z => negb (Z.eqb z 0)
  | VStr s => negb (String.eqb s "")
  end.

(** [a == b] between option values.  A [bool] compares as the integer it
    is; a string is only equal to a string. *)
Definition as_int (v : pyval) : option Z :=
  match v with
  | VBool b => Some (if b then 1 else 0)%Z
  | VInt z => Some z
  | VStr _ => None
  end.

Definition py_eq (a b : pyval) : bool :=
  match a, b with
  | VStr s, VStr t => String.eqb s t
  | VStr _, _ | _, VStr _ => false
  | _, _ => match as_int a, as_int b with
            | Some x, Some y => Z.eqb x y
            | _, _ => false
            end
  end.

Inductive exn : Type :=
| ValueError
| IndexError
| TypeError
| NameError
| KeyError
| IOError
| OSError (msg : string)
| RecursionError
| Exception (msg : string)
| SystemExit (msg : string).

Inductive result (A : Type) : Type :=
| Ok (a : A)
| Raise (e : exn).
Arguments Ok {A} a.
Arguments Raise {A} e.

Definition bind {A B : Type} (r : result A) (k : A -> result B) : result B :=
  match r with
  | Ok a => k a
  | Raise e => Raise e
  end.

Notation "'do' x <- r ; k" := (bind r (fun x => k))
  (at level 10, x name, r at level 100, k at level 200).

(* ====================================================================== *)
(** ** Dictionaries in iteration order *)
(* ====================================================================== *)

Definition dict : Type := list (string * pyval).

Fixpoint dict_get (d : dict) (k : string) : option pyval :=
  match d with
  | [] => None
  | (k', v) :: d' => if String.eqb k' k then Some v else dict_get d' k
  end.

Definition dict_mem (d : dict) (k : string) : bool :=
  match dict_get d k with Some _ => true | None => false end.

(** [d[k] = v]. *)
Fixpoint dict_set (d : dict) (k : string) (v : pyval) : dict :=
  match d with
  | [] => [(k, v)]
  | (k', v') :: d' =>
      if String.eqb k' k then (k', v) :: d' else (k', v') :: dict_set d' k v
  end.

(** [d.update(e)]. *)
Definition dict_update (d e : dict) : dict :=
  fold_left (fun acc kv => dict_set acc (fst kv) (snd kv)) e d.

(** [dict(l)] for a list of pairs. *)
Definition dict_of_list (l : list (string * pyval)) : dict :=
  dict_update [] l.

(** [d.get(k, dflt)]. *)
Definition dict_get_default (d : dict) (k : string) (dflt : pyval) : pyval :=
  match dict_get d k with Some v => v | None => dflt end.

(* ====================================================================== *)
(** ** The platform *)
(* ====================================================================== *)

(** The script exits at import time on any other system. *)
Inductive os : Type := Linux | Windows.

Record Platform : Type := {
  OS_TYPE : os;
  (** major and minor number of [sys.version_info] *)
  version_info : Z * Z;
  (** [platform.architecture()[0] == '64bit'] *)
  arch_64bit : bool
}.

(** [sys.version_info < (a, b)] and [sys.version_info <= (a, b)]:
    [sys.version_info] has five fields, so it is never equal to a pair and
    both comparisons come down to the order on (major, minor). *)
Definition version_before (v : Z * Z) (a b : Z) : bool :=
  (Z.ltb (fst v) a || (Z.eqb (fst v) a && Z.ltb (snd v) b))%bool.

(** [os.path.isabs] and [os.path.join] of [posixpath]. *)
Definition isabs (p : string) : bool := Str.startswith "/" p.

Definition endswith_slash (a : string) : bool :=
  match Str.last a with
  | Some c => Ascii.eqb c "/"
  | None => false
  end.

Definition path_join (a p : string) : string :=
  if Str.startswith "/" p then p
  else if (String.eqb a "" || endswith_slash a)%bool then (a ++ p)%string
  else (a ++ "/" ++ p)%string.

(* ====================================================================== *)
(** ** class Config *)
(* ====================================================================== *)

Record Config : Type := {
  cmd_opts : dict;
  extra_opts : list string;
  config_opts : option (list (string * pyval))
}.

Definition defaults (P : Platform) : dict :=
  [ ("git", VBool false);
    ("find-root-path", VStr "");
    ("source-prefix", VStr "");
    ("config-file", VStr "scripts/config.txt");
    ("build-prefix", VStr "build");
    ("build-type", VStr (match OS_TYPE P with
                         | Linux => "RelWithDebInfo"
                         | Windows => "Release"
                         end));
    ("install", VBool false);
    ("install-prefix", VStr "");
    ("install-python-prefix", VStr "") ].

(** [Config.__init__] before [decode_args]. *)
Definition new_config : Config :=
  {| cmd_opts := []; extra_opts := []; config_opts := None |}.

Definition set_cmd (cfg : Config) (x : string) (v : pyval) : Config :=
  {| cmd_opts := dict_set (cmd_opts cfg) x v;
     extra_opts := extra_opts cfg;
     config_opts := config_opts cfg |}.

Definition add_extra (cfg : Config) (x : string) : Config :=
  {| cmd_opts := cmd_opts cfg;
     extra_opts := extra_opts cfg ++ [x];
     config_opts := config_opts cfg |}.

(** [Config.get(x)], with [check_defaults] left at [True]. *)
Definition get (P : Platform) (cfg : Config) (x : string) : result pyval :=
  match dict_get (cmd_opts cfg) x with
  | Some v => Ok v
  | None => match dict_get (defaults P) x with
            | Some v => Ok v
            | None => Raise KeyError
            end
  end.

Definition to_underscore (x : string) : string := Str.replace "-" "_" x.
Definition from_underscore (x : string) : string := Str.replace "_" "-" x.

(** The [for opt in self.defaults] loop of [decode_args] for one [arg],
    over the option names still to try; its [else] branch runs when no
    name matched. *)
Fixpoint decode_arg (opts : list string) (arg : string) (cfg : Config)
  : Config :=
  match opts with
  | [] => add_extra cfg arg
  | opt :: opts' =>
      let arg :=
        if String.eqb arg ("--no-" ++ opt) then ("--" ++ opt ++ "=no")%string
        else arg in
      let prefix := ("--" ++ opt)%string in
      if String.eqb arg prefix then set_cmd cfg opt (VBool true)
      else
        let prefix := (prefix ++ "=")%string in
        if Str.startswith prefix arg then
          let val := Str.drop (String.length prefix) arg in
          let val :=
            if String.eqb (Str.lower val) "yes" then VBool true
            else if String.eqb (Str.lower val) "no" then VBool false
            else VStr val in
          set_cmd cfg opt val
        else decode_arg opts' arg cfg
  end.

Definition is_help (arg : string) : bool :=
  existsb (String.eqb arg) ["--help"; "-help"; "-h"; "-?"].

(** The [for arg in argv] loop.  [print_help] is a static method of the
    class and is called here as a bare name, which is not bound. *)
Fixpoint decode_argv (P : Platform) (argv : list string) (cfg : Config)
  : result Config :=
  match argv with
  | [] => Ok cfg
  | arg :: argv' =>
      if is_help arg then Raise NameError
      else decode_argv P argv' (decode_arg (List.map fst (defaults P)) arg cfg)
  end.

(** The body of [for opt in ['config-file', 'build-prefix']]. *)
Definition absolutize (P : Platform) (cwd : string) (opt : string)
  (cfg : Config) : result Config :=
  do p <- get P cfg opt;
  if truthy p then
    match p with
    | VStr s =>
        if negb (isabs s) then Ok (set_cmd cfg opt (VStr (path_join cwd s)))
        else Ok cfg
    | _ => Raise TypeError
    end
  else Ok cfg.

(** The part of [decode_args] after the argument loop; [cwd] is
    [os.getcwd()]. *)
Definition decode_paths (P : Platform) (cwd : string) (cfg : Config)
  : result Config :=
  do sp <- get P cfg "source-prefix";
  let cfg := if negb (truthy sp) then set_cmd cfg "source-prefix" (VStr cwd)
             else cfg in
  do cfg <- absolutize P cwd "config-file" cfg;
  absolutize P cwd "build-prefix" cfg.

Definition decode_args (P : Platform) (cwd : string) (argv : list string)
  (cfg : Config) : result Config :=
  do cfg <- decode_argv P argv cfg;
  decode_paths P cwd cfg.

(** [Config(argv)]. *)
Definition make_config (P : Platform) (cwd : string) (argv : list string)
  : result Config :=
  decode_args P cwd argv new_config.

Definition get_git_options (cfg : Config) : list string := extra_opts cfg.

(** The inner loop of [get_cmd_options] over the two directory families:
    [arg] is rewritten in place and every pair is tried. *)
Definition family_name (arg : string) : string :=
  fold_left
    (fun arg (fam : string * string) =>
       let '(oprefix, sdir) := fam in
       let sdir := (sdir ++ "/")%string in
       if Str.startswith sdir arg
       then (oprefix ++ "-" ++ Str.drop (String.length sdir) arg)%string
       else arg)
    [("limacamera", "camera"); ("lima-enable", "third-party")] arg.

Definition get_cmd_options (P : Platform) (cfg : Config)
  (check_defaults : bool) : dict :=
  let opts := if check_defaults then dict_of_list (defaults P) else [] in
  let opts := dict_update opts (cmd_opts cfg) in
  fold_left (fun opts arg => dict_set opts (family_name arg) (VBool true))
    (extra_opts cfg) opts.

(** One line of the configuration file: [None] when the line is skipped. *)
Definition read_line (line : string) : result (option (string * pyval)) :=
  let line := Str.strip line in
  if (String.eqb line "" || Str.startswith "#" line)%bool then Ok None
  else
    match Str.split "=" line with
    | [opt; val] =>
        let opt := Str.lower (from_underscore opt) in
        let val := if Str.isdigit val then VInt (Str.to_int val)
                   else VStr val in
        Ok (Some (opt, val))
    | _ => Raise ValueError
    end.

(** The loop over the lines of the file, appending to [self.config_opts];
    when a line fails the entries read so far stay in the list. *)
Fixpoint read_lines (lines : list string) (acc : list (string * pyval))
  : result unit * list (string * pyval) :=
  match lines with
  | [] => (Ok tt, acc)
  | line :: lines' =>
      match read_line line with
      | Ok None => read_lines lines' acc
      | Ok (Some e) => read_lines lines' (acc ++ [e])
      | Raise e => (Raise e, acc)
      end
  end.

(** The files that can be opened: [open(name)] gives the lines of the
    file, each with its line end, or raises. *)
Definition filesystem : Type := pyval -> result (list string).

Definition with_config_opts (cfg : Config) (l : list (string * pyval))
  : Config :=
  {| cmd_opts := cmd_opts cfg;
     extra_opts := extra_opts cfg;
     config_opts := Some l |}.

Definition read_config (P : Platform) (fs : filesystem) (cfg : Config)
  : result unit * Config :=
  match get P cfg "config-file" with
  | Raise e => (Raise e, cfg)
  | Ok config_file =>
      let cfg := with_config_opts cfg [] in
      match fs config_file with
      | Raise e => (Raise e, cfg)
      | Ok lines =>
          let '(r, l) := read_lines lines [] in
          (r, with_config_opts cfg l)
      end
  end.

Definition get_config_options (P : Platform) (fs : filesystem) (cfg : Config)
  : result (list (string * pyval)) * Config :=
  match config_opts cfg with
  | Some l => (Ok l, cfg)
  | None =>
      match read_config P fs cfg with
      | (Raise e, cfg') => (Raise e, cfg')
      | (Ok _, cfg') =>
          match config_opts cfg' with
          | Some l => (Ok l, cfg')
          | None => (Raise TypeError, cfg')
          end
      end
  end.

(** [cmd_opts.get('install', install_prefix != '')]. *)
Definition is_install_required (P : Platform) (cfg : Config) : pyval :=
  let cmd_opts := get_cmd_options P cfg false in
  let install_prefix := dict_get_default cmd_opts "install-prefix" (VStr "") in
  dict_get_default cmd_opts "install"
    (VBool (negb (py_eq install_prefix (VStr "")))).

(* ====================================================================== *)
(** ** class CMakeOptions *)
(* ====================================================================== *)

Definition cmd_2_cmake_map : list (string * string) :=
  [ ("build-type", "cmake-build-type");
    ("install-prefix", "cmake-install-prefix");
    ("install-python-prefix", "python-site-packages-dir");
    ("find-root-path", "cmake-find-root-path") ].

(** The local function [is_active] of [get_configure_options].  Its body
    reads the variable [val] of the enclosing function, which at both
    call sites is the argument passed.  The result is the object the
    Python expression evaluates to; the caller tests its truth value. *)
Definition is_active (val : pyval) : pyval :=
  match val with
  | VBool _ | VInt _ => val
  | VStr s =>
      if truthy val
      then VBool (negb (existsb (String.eqb (Str.lower s))
                          [Str.of_int 0; "no"]))
      else val
  end.

(** The test made on one command-line option inside the loop over
    [cmd_opts.items()]: [Ok true] when the option overrides [opt]. *)
Definition overrides (cmd_opt opt : string) : result bool :=
  if String.eqb cmd_opt opt then Ok true
  else if String.eqb cmd_opt "" then Raise ValueError
  else
    match Str.split cmd_opt opt with
    | [t0; t1] =>
        match Str.last t0 with
        | None => Raise IndexError
        | Some c => Ok (Ascii.eqb c "-" && negb (truthy (VStr t1)))%bool
        end
    | _ => Ok false
    end.

(** The loop over [cmd_opts.items()] for one configuration entry: the
    value [val] of the entry after the loop. *)
Fixpoint override (opt : string) (val : pyval) (items : dict)
  : result pyval :=
  match items with
  | [] => Ok val
  | (cmd_opt, cmd_val) :: items' =>
      do hit <- overrides cmd_opt opt;
      if hit then Ok cmd_val else override opt val items'
  end.

(** The loop over [config_opts], appending to [cmake_opts]. *)
Fixpoint config_pass (cmd_opts : dict) (config_opts : list (string * pyval))
  (cmake_opts : list (string * pyval)) : result (list (string * pyval)) :=
  match config_opts with
  | [] => Ok cmake_opts
  | (opt, val) :: config_opts' =>
      do val <- override opt val cmd_opts;
      config_pass cmd_opts config_opts'
        (if truthy (is_active val) then cmake_opts ++ [(opt, val)]
         else cmake_opts)
  end.

(** The loop over [cmd_2_cmake_map]. *)
Fixpoint cmake_pass (P : Platform) (cfg : Config)
  (table : list (string * string)) (cmake_opts : list (string * pyval))
  : result (list (string * pyval)) :=
  match table with
  | [] => Ok cmake_opts
  | (cmd_key, cmake_key) :: table' =>
      do val <- get P cfg cmd_key;
      cmake_pass P cfg table'
        (if (truthy (is_active val)
             && negb (dict_mem (dict_of_list cmake_opts) cmake_key))%bool
         then cmake_opts ++ [(cmake_key, val)]
         else cmake_opts)
  end.

(** The options handed to cmake, in order: both loops. *)
Definition resolve_options (P : Platform) (cfg : Config)
  (config_opts : list (string * pyval)) : result (list (string * pyval)) :=
  let cmd_opts := get_cmd_options P cfg false in
  do cmake_opts <- config_pass cmd_opts config_opts [];
  cmake_pass P cfg cmd_2_cmake_map cmake_opts.

(** The generator name. *)
Definition cmake_generator (P : Platform) : result string :=
  match OS_TYPE P with
  | Linux => Ok "Unix Makefiles"
  | Windows =>
      if version_before (version_info P) 2 6
      then Raise (SystemExit "Only python > 2.6 supported")
      else
        let win_compiler :=
          if version_before (version_info P) 3 2 then "Visual Studio 9 2008"
          else if version_before (version_info P) 3 4
               then "Visual Studio 10 2010"
               else "Visual Studio 14 2015" in
        Ok (if arch_64bit P then (win_compiler ++ " Win64")%string
            else win_compiler)
  end.

(** The double-quote character, as a string. *)
Definition dquote : string := String (ascii_of_N 34) EmptyString.

(** The local function [quoted] of [cmd_option]. *)
Definition quoted (x : pyval) : string :=
  let x := match x with
           | VBool b => VInt (if b then 1 else 0)
           | _ => x
           end in
  let x := match x with
           | VStr s => s
           | VInt z => Str.of_int z
           | VBool b => if b then "True" else "False"
           end in
  if (Str.contains " " x && negb (Str.startswith dquote x))%bool
  then (dquote ++ x ++ dquote)%string
  else x.

Definition cmd_option (opt_val : string * pyval) : string :=
  let '(o, v) := opt_val in
  ("-D" ++ Str.upper (to_underscore o) ++ "=" ++ quoted v)%string.

(** [' '.join(['cmake'] + opts)]. *)
Definition get_cmd_line_from_options (opts : list string) : string :=
  Str.join " " ("cmake" :: opts).

(** The tail of [get_configure_options], from the resolved options to
    the command line.  Joining fails on a source prefix that is not a
    string. *)
Definition configure_line (P : Platform) (cfg : Config)
  (cmake_opts : list (string * pyval)) : result string :=
  do cmake_gen <- cmake_generator P;
  do source_prefix <- get P cfg "source-prefix";
  match source_prefix with
  | VStr sp =>
      let opts := [sp; ("-G" ++ dquote ++ cmake_gen ++ dquote)%string]
                  ++ List.map cmd_option cmake_opts in
      Ok (get_cmd_line_from_options opts)
  | _ => Raise TypeError
  end.

Definition get_configure_options (P : Platform) (fs : filesystem)
  (cfg : Config) : result string * Config :=
  match get_config_options P fs cfg with
  | (Raise e, cfg') => (Raise e, cfg')
  | (Ok config_opts, cfg') =>
      (do cmake_opts <- resolve_options P cfg' config_opts;
       configure_line P cfg' cmake_opts, cfg')
  end.

(* ====================================================================== *)
(** ** The process state seen by the submodule walk *)
(* ====================================================================== *)

(** The working directory of the process and the commands handed to
    [os.system] so far, each with the directory it ran in. *)
Record proc : Type := {
  cwd : string;
  log : list (string * string)
}.

(** What the outside answers.  Every answer may depend on the directory
    the process is in and on what has run before. *)
Record World : Type := {
  (** [os.path.isdir(path)] *)
  isdir : proc -> string -> bool;
  (** [os.chdir(path)]: the new working directory, or the error raised *)
  chdir : proc -> pyval -> result string;
  (** [os.system(cmd)]: the exit status *)
  system : proc -> string -> Z;
  (** [Popen(['git', 'submodule'], stdout=PIPE).stdout.readlines()] *)
  git_submodule : proc -> result (list string)
}.

(** Computations on the process state that may raise. *)
Definition io (A : Type) : Type := proc -> result A * proc.

Definition ret {A : Type} (a : A) : io A := fun st => (Ok a, st).

Definition raise {A : Type} (e : exn) : io A := fun st => (Raise e, st).

Definition iobind {A B : Type} (m : io A) (k : A -> io B) : io B :=
  fun st =>
    match m st with
    | (Ok a, st') => k a st'
    | (Raise e, st') => (Raise e, st')
    end.

Notation "x <~ m ;; k" := (iobind m (fun x => k))
  (at level 61, m at next level, right associativity).
Notation "m ;; k" := (iobind m (fun _ => k))
  (at level 61, right associativity).

Definition lift {A : Type} (r : result A) : io A := fun st => (r, st).

(** [try: m except Exception as e: h e]. *)
Definition try_except {A : Type} (m : io A) (h : exn -> io A) : io A :=
  fun st =>
    match m st with
    | (Raise (SystemExit msg), st') => (Raise (SystemExit msg), st')
    | (Raise e, st') => h e st'
    | r => r
    end.

Fixpoint for_each {A : Type} (l : list A) (body : A -> io unit) : io unit :=
  match l with
  | [] => ret tt
  | a :: l' => body a ;; for_each l' body
  end.

(** [str(e)] for the exceptions met in the walk. *)
Definition exn_str (e : exn) : string :=
  match e with
  | Exception msg | SystemExit msg | OSError msg => msg
  | IndexError => "list index out of range"
  | RecursionError => "maximum recursion depth exceeded"
  | _ => ""
  end.

Section Walk.

Variable P : Platform.
Variable w : World.

Definition getcwd : io string := fun st => (Ok (cwd st), st).

Definition os_chdir (d : pyval) : io unit :=
  fun st =>
    match chdir w st d with
    | Ok d' => (Ok tt, {| cwd := d'; log := log st |})
    | Raise e => (Raise e, st)
    end.

(** [exec_cmd(cmd, exc_msg)]. *)
Definition exec_cmd (cmd exc_msg : string) : io unit :=
  fun st =>
    let ret := system w st cmd in
    let st' := {| cwd := cwd st; log := log st ++ [(cwd st, cmd)] |} in
    if negb (Z.eqb ret 0)
    then (Raise (Exception (exc_msg ++ " [" ++ cmd ++ "]")), st')
    else (Ok tt, st').

(** [with ch_dir(new_dir): body].  The generator has no [try]: when the
    body raises, the exception is thrown into it at the [yield] and the
    statement after the [yield] does not run. *)
Definition ch_dir (new_dir : pyval) (body : io unit) : io unit :=
  cur_dir <~ getcwd ;;
  os_chdir new_dir ;;
  body ;;
  os_chdir (VStr cur_dir).

Definition popen_git_submodule : io (list string) :=
  fun st => (git_submodule w st, st).

(** [GitHelper.update_submodule]; [depth] is the number of nested calls
    the interpreter still allows. *)
Fixpoint update_submodule (depth : nat) (submod : string) : io unit :=
  match depth with
  | O => raise RecursionError
  | S depth' =>
      try_except
        (exec_cmd ("git submodule " ++ ("init " ++ submod)) "" ;;
         exec_cmd ("git submodule " ++ ("update " ++ submod)) "" ;;
         ch_dir (VStr submod)
           (exec_cmd "git submodule init" "" ;;
            lines <~ popen_git_submodule ;;
            for_each lines (fun l =>
              match Str.split_ws (Str.strip l) with
              | _ :: tok1 :: _ => update_submodule depth' tok1
              | _ => raise IndexError
              end)))
        (fun e =>
           raise (SystemExit ("Problem with submodule " ++ submod ++ ": "
                              ++ exn_str e)))
  end.

Definition not_submodules : list string :=
  ["git"; "python"; "tests"; "test"; "cbf"; "lz4"; "fits"; "gz";
   "tiff"; "hdf5"].

Definition submodule_map : list (string * string) :=
  [ ("espia", "camera/common/espia");
    ("pytango-server", "applications/tango/python");
    ("sps-image", "Sps") ].

Definition basic_submods : list string := ["Processlib"].

Definition mem (x : string) (l : list string) : bool :=
  existsb (String.eqb x) l.

Fixpoint assoc (l : list (string * string)) (k : string) : option string :=
  match l with
  | [] => None
  | (k', v) :: l' => if String.eqb k' k then Some v else assoc l' k
  end.

(** The loop over [basic_submods], appending the names not yet there. *)
Definition add_basic (submodules : list string) : list string :=
  fold_left (fun l submod => if mem submod l then l else l ++ [submod])
    basic_submods submodules.

(** The loop over [['third-party', 'camera']] for one name. *)
Fixpoint search_dirs (st : proc) (sdirs : list string) (submod : string)
  : string :=
  match sdirs with
  | [] => submod
  | sdir :: sdirs' =>
      let s := path_join sdir submod in
      if isdir w st s then s else search_dirs st sdirs' submod
  end.

(** The body of the first loop of [check_submodules] for one name: the
    path appended to [submod_list], if any. *)
Definition locate (st : proc) (submod : string) : option string :=
  if mem submod not_submodules then None
  else
    let submod := match assoc submodule_map submod with
                  | Some p => p
                  | None => submod
                  end in
    let submod := search_dirs st ["third-party"; "camera"] submod in
    if isdir w st submod then Some submod else None.

Fixpoint locate_all (st : proc) (submodules : list string) : list string :=
  match submodules with
  | [] => []
  | submod :: rest =>
      match locate st submod with
      | Some p => p :: locate_all st rest
      | None => locate_all st rest
      end
  end.

(** [GitHelper.check_submodules(submodules)]; [None] stands for the
    default argument, and [depth] is as in [update_submodule]. *)
Definition check_submodules (depth : nat) (cfg : Config)
  (submodules : option (list string)) : io unit :=
  let submodules := match submodules with
                    | Some l => l
                    | None => get_git_options cfg
                    end in
  let submodules := add_basic submodules in
  root <~ lift (get P cfg "source-prefix") ;;
  ch_dir root
    (submod_list <~ (fun st => (Ok (locate_all st submodules), st)) ;;
     for_each submod_list (update_submodule depth)).

End Walk.

(* ====================================================================== *)
(** ** Vocabulary of the properties, and sample runs *)
(* ====================================================================== *)

(** The value part of a flag, following the wording of the specification:
    a boolean becomes 1 or 0, an integer its decimal writing, and a string
    with a space in it is put between double quotes unless it starts with
    one. *)
Definition spec_flag_value (v : pyval) : string :=
  match v with
  | VBool true => "1"
  | VBool false => "0"
  | VInt z => Str.of_int z
  | VStr s =>
      if Str.contains " " s
      then (if Str.startswith dquote s then s else dquote ++ s ++ dquote)%string
      else s
  end.

Definition spec_flag (opt_val : string * pyval) : string :=
  ("-D" ++ Str.upper (Str.replace "-" "_" (fst opt_val)) ++ "="
   ++ spec_flag_value (snd opt_val))%string.

(** The activation rule in the words of the specification: boolean true,
    a non-zero integer, or a string that is neither empty nor, in lower
    case, [0] or [no]. *)
Definition spec_active (v : pyval) : bool :=
  match v with
  | VBool b => b
  | VInt z => negb (Z.eqb z 0)
  | VStr s =>
      (negb (String.eqb s "")
       && negb (String.eqb (Str.lower s) "0")
       && negb (String.eqb (Str.lower s) "no"))%bool
  end.

(** A run on Linux: [--build-type=Debug camera/simulator python], decoded
    in [/home/u/lima]. *)
Definition linux : Platform :=
  {| OS_TYPE := Linux; version_info := (3, 8)%Z; arch_64bit := true |}.

Definition sample_cfg : Config :=
  {| cmd_opts := [ ("build-type", VStr "Debug");
                   ("source-prefix", VStr "/home/u/lima");
                   ("config-file", VStr "/home/u/lima/scripts/config.txt");
                   ("build-prefix", VStr "/home/u/lima/build") ];
     extra_opts := ["camera/simulator"; "python"];
     config_opts := None |}.

Definition nl : string := String (ascii_of_N 10) EmptyString.

Definition sample_file : list string :=
  [ ("# options" ++ nl)%string;
    nl;
    ("LIMA_ENABLE_PYTHON=0" ++ nl)%string;
    ("LIMACAMERA_SIMULATOR=0" ++ nl)%string;
    ("LIMA_ENABLE_TESTS=No" ++ nl)%string;
    ("LIMA_ENABLE_TIFF=1" ++ nl)%string ].

Definition sample_fs : filesystem := fun _ => Ok sample_file.

Definition sample_entries : list (string * pyval) :=
  [ ("lima-enable-python", VInt 0);
    ("limacamera-simulator", VInt 0);
    ("lima-enable-tests", VStr "No");
    ("lima-enable-tiff", VInt 1) ].

Definition sample_resolved : list (string * pyval) :=
  [ ("lima-enable-python", VBool true);
    ("limacamera-simulator", VBool true);
    ("lima-enable-tiff", VInt 1);
    ("cmake-build-type", VStr "Debug") ].


(** A dictionary has each key once. *)
Definition dict_wf (d : dict) : Prop := NoDup (List.map fst d).

(** Whether an install prefix other than the empty string was supplied. *)
Definition prefix_supplied (P : Platform) (cfg : Config) : bool :=
  match dict_get (get_cmd_options P cfg false) "install-prefix" with
  | Some v => negb (py_eq v (VStr ""))
  | None => false
  end.

(** The object decoded from [--build-prefix=/tmp/b] in [/home/u/lima]. *)
Definition decoded_cfg : Config :=
  {| cmd_opts := [ ("build-prefix", VStr "/tmp/b");
                   ("source-prefix", VStr "/home/u/lima");
                   ("config-file", VStr "/home/u/lima/scripts/config.txt") ];
     extra_opts := [];
     config_opts := None |}.

(** The object decoded from [--no-install --install-prefix=/opt/x]. *)
Definition no_install_cfg : Config :=
  {| cmd_opts := [ ("install", VBool false);
                   ("install-prefix", VStr "/opt/x");
                   ("source-prefix", VStr "/home/u/lima");
                   ("config-file", VStr "/home/u/lima/scripts/config.txt");
                   ("build-prefix", VStr "/home/u/lima/build") ];
     extra_opts := [];
     config_opts := None |}.

(** The command-line name ends [opt], a hyphen stands before it, and it
    does not occur in [opt] before that place. *)
Definition suffix_match (cmd opt : string) : Prop :=
  cmd <> ""
  /\ exists p, opt = (p ++ "-" ++ cmd)%string
               /\ Str.find cmd opt = Some (S (String.length p)).

(** A line is blank when it holds white space only, and a comment when
    its first character after leading white space is [#]. *)
Definition blank (line : string) : bool := Str.all Str.isspace line.

Definition comment (line : string) : bool :=
  Str.startswith "#" (Str.lstrip line).

Definition skipped (line : string) : bool := (blank line || comment line)%bool.

(** The entry a line [key=value] gives, in the words of the
    specification. *)
Definition spec_entry (k v : string) : string * pyval :=
  (Str.lower (Str.replace "_" "-" k),
   if Str.isdigit v then VInt (Str.to_int v) else VStr v).

(** The line, stripped, reads [key=value] with one [=], and [e] is its
    entry. *)
Definition entry_of (line : string) (e : string * pyval) : Prop :=
  exists k v,
    Str.strip line = (k ++ "=" ++ v)%string
    /\ Str.contains "=" k = false /\ Str.contains "=" v = false
    /\ e = spec_entry k v.

(** The lines that are not skipped, and the test that a line, stripped,
    holds exactly one [=]. *)
Definition kept (lines : list string) : list string :=
  filter (fun l => negb (skipped l)) lines.

Definition one_separator (line : string) : bool :=
  Nat.eqb (Str.count "=" (Str.strip line)) 1.


(** A checkout in [/home/u/lima] with the modules [third-party/Processlib]
    and [camera/simulator], neither of which has modules of its own.
    Every command succeeds. *)
Definition lima_root : string := "/home/u/lima".

Definition lima_world : World :=
  {| isdir := fun st p =>
       (String.eqb (cwd st) lima_root
        && existsb (String.eqb p)
             ["third-party/Processlib"; "camera/simulator"])%bool;
     chdir := fun st d =>
       match d with
       | VStr s => Ok (path_join (cwd st) s)
       | _ => Raise TypeError
       end;
     system := fun _ _ => 0%Z;
     git_submodule := fun _ => Ok [] |}.

(** The same checkout, where Processlib has one nested module. *)
Definition nested_world : World :=
  {| isdir := isdir lima_world;
     chdir := chdir lima_world;
     system := system lima_world;
     git_submodule := fun st =>
       if String.eqb (cwd st) "/home/u/lima/third-party/Processlib"
       then Ok [(" 3f2a core/sip (heads/master)" ++ nl)%string]
       else Ok [] |}.

(** The same checkout, where [git submodule init] fails inside
    Processlib. *)
Definition broken_world : World :=
  {| isdir := isdir lima_world;
     chdir := chdir lima_world;
     system := fun st cmd =>
       if (String.eqb (cwd st) "/home/u/lima/third-party/Processlib"
           && String.eqb cmd "git submodule init")%bool
       then 1%Z else 0%Z;
     git_submodule := git_submodule lima_world |}.

Definition start : proc := {| cwd := lima_root; log := [] |}.

Definition git_cfg : Config :=
  {| cmd_opts := [ ("git", VBool true);
                   ("source-prefix", VStr lima_root);
                   ("config-file", VStr "/home/u/lima/scripts/config.txt");
                   ("build-prefix", VStr "/home/u/lima/build") ];
     extra_opts := [];
     config_opts := None |}.

(** The name after the rename table, and the test that none of its three
    candidate paths is a directory. *)
Definition renamed (submod : string) : string :=
  match assoc submodule_map submod with
  | Some p => p
  | None => submod
  end.

Definition no_candidate (w : World) (st : proc) (submod : string) : bool :=
  (negb (isdir w st (path_join "third-party" (renamed submod)))
   && negb (isdir w st (path_join "camera" (renamed submod)))
   && negb (isdir w st (renamed submod)))%bool.

(** A computation that, when it returns from an absolute directory,
    returns in that directory. *)
Definition keeps_cwd (m : io unit) : Prop :=
  forall st st', isabs (cwd st) = true -> m st = (Ok tt, st') ->
                 cwd st' = cwd st.

(* ====================================================================== *)
(** ** Building and installing; the entry point *)
(* ====================================================================== *)

(** [Config.get(x, check_defaults)] with the flag given. *)
Definition get_checked (P : Platform) (cfg : Config) (x : string)
  (check_defaults : bool) : result pyval :=
  match dict_get (cmd_opts cfg) x with
  | Some v => Ok v
  | None =>
      if check_defaults
      then match dict_get (defaults P) x with
           | Some v => Ok v
           | None => Raise KeyError
           end
      else Ok (VStr "")
  end.

(** [str(v)] of an option value, as the [%s] conversion writes it. *)
Definition py_str (v : pyval) : string :=
  match v with
  | VStr s => s
  | VInt z => Str.of_int z
  | VBool true => "True"
  | VBool false => "False"
  end.

(** What the outside answers to the build: [os.path.exists(path)],
    [os.mkdir(path)] and [multiprocessing.cpu_count()]. *)
Record Host : Type := {
  path_exists : proc -> pyval -> result bool;
  mkdir : proc -> pyval -> result unit;
  cpu_count : result Z
}.

(** [CMakeOptions.get_build_options]. *)
Definition get_build_options (P : Platform) (h : Host) (cfg : Config)
  : result string :=
  let opts := ["--build ."] in
  do opts <- match OS_TYPE P with
             | Linux =>
                 do n <- cpu_count h;
                 let nb_jobs := (n + 1)%Z in
                 Ok (opts ++ ["--"; ("-j " ++ Str.of_int nb_jobs)%string])
             | Windows => Ok opts
             end;
  do opts <- match OS_TYPE P with
             | Windows =>
                 do build_type <- get P cfg "build-type";
                 Ok (opts ++ [("--config " ++ py_str build_type)%string])
             | Linux => Ok opts
             end;
  Ok (get_cmd_line_from_options opts).

(** [CMakeOptions.get_install_options]. *)
Definition get_install_options : string :=
  get_cmd_line_from_options ["--build ."; "--target install"].

Definition configure_hint : string :=
  ("Something is wrong in CMake environment. "
   ++ "Make sure your configuration is good.")%string.

Definition build_hint : string :=
  ("CMake could not build Lima. "
   ++ "Pleae contact lima@esrf.fr for help.")%string.

Definition install_hint : string :=
  ("CMake could not install libraries. "
   ++ "Make sure you have necessary rights.")%string.

(** The three commands of [build_install_lima], once the process is in
    the build directory and the configure line is known. *)
Definition run_cmake (P : Platform) (w : World) (h : Host) (cfg : Config)
  (configure_cmd : string) : io unit :=
  exec_cmd w configure_cmd configure_hint ;;
  build_cmd <~ lift (get_build_options P h cfg) ;;
  exec_cmd w build_cmd build_hint ;;
  if negb (truthy (is_install_required P cfg)) then ret tt
  else exec_cmd w get_install_options install_hint.

(** The start of [build_install_lima]: make the build directory when it
    does not exist, and enter it. *)
Definition enter_build_dir (w : World) (h : Host) (build_prefix : pyval)
  : io unit :=
  found <~ (fun st => (path_exists h st build_prefix, st)) ;;
  (if negb found then (fun st => (mkdir h st build_prefix, st))
   else ret tt) ;;
  os_chdir w build_prefix.

(** [build_install_lima(cfg)]: the outcome, the process, and the
    configuration object, which may have read its file. *)
Definition build_install_lima (P : Platform) (w : World) (h : Host)
  (fs : filesystem) (cfg : Config) (st : proc)
  : result unit * proc * Config :=
  match get P cfg "build-prefix" with
  | Raise e => (Raise e, st, cfg)
  | Ok build_prefix =>
      match enter_build_dir w h build_prefix st with
      | (Raise e, st1) => (Raise e, st1, cfg)
      | (Ok _, st1) =>
          match get_configure_options P fs cfg with
          | (Raise e, cfg1) => (Raise e, st1, cfg1)
          | (Ok configure_cmd, cfg1) =>
              (run_cmake P w h cfg1 configure_cmd st1, cfg1)
          end
      end
  end.

(** [str(e)] as [main] prints it: the message of an [Exception] or of an
    [OSError], and for the other exceptions the text the interpreter
    gives, [other]. *)
Definition describe (other : exn -> string) (e : exn) : string :=
  match e with
  | Exception msg | OSError msg | SystemExit msg => msg
  | _ => other e
  end.

(** The submodule step of [main]: on Linux, when [git] is set. *)
Definition git_step (P : Platform) (w : World) (depth : nat) (cfg : Config)
  : io unit :=
  match OS_TYPE P with
  | Linux =>
      git <~ lift (get P cfg "git") ;;
      if truthy git then check_submodules P w depth cfg None else ret tt
  | Windows => ret tt
  end.

(** [main()], with [argv] for [sys.argv[1:]]. *)
Definition main (P : Platform) (w : World) (h : Host) (fs : filesystem)
  (other : exn -> string) (depth : nat) (argv : list string) (st : proc)
  : result unit * proc :=
  match make_config P (cwd st) argv with
  | Raise e => (Raise e, st)
  | Ok cfg =>
      match git_step P w depth cfg st with
      | (Raise e, st1) => (Raise e, st1)
      | (Ok _, st1) =>
          match build_install_lima P w h fs cfg st1 with
          | (Raise (SystemExit msg), st2, _) => (Raise (SystemExit msg), st2)
          | (Raise e, st2, _) =>
              (Raise (SystemExit ("Problem building/installing Lima: "
                                  ++ describe other e)), st2)
          | (Ok _, st2, _) => (Ok tt, st2)
          end
      end
  end.

(* ====================================================================== *)
(** ** Vocabulary of the further properties *)
(* ====================================================================== *)

(** The value [--name=val] gives: [yes] and [no], in any case, are the
    booleans, and any other text is kept. *)
Definition option_value (val : string) : pyval :=
  if String.eqb (Str.lower val) "yes" then VBool true
  else if String.eqb (Str.lower val) "no" then VBool false
  else VStr val.

(** The command-line options are options the script knows, each held
    once. *)
Definition known_options (P : Platform) (cfg : Config) : Prop :=
  dict_wf (cmd_opts cfg)
  /\ forall k, In k (List.map fst (cmd_opts cfg)) ->
               In k (List.map fst (defaults P)).

(** A host where the build directory is missing and can be made, on a
    machine with four processors. *)
Definition sample_host : Host :=
  {| path_exists := fun _ _ => Ok false;
     mkdir := fun _ _ => Ok tt;
     cpu_count := Ok 4%Z |}.

(** Letters of the two cases. *)
Definition is_upper (c : ascii) : bool := Str.in_range 65 90 c.
Definition is_lower (c : ascii) : bool := Str.in_range 97 122 c.

(** An option name as the reader leaves it: no underscore and no
    upper-case letter. *)
Definition normal_key (k : string) : bool :=
  (negb (Str.contains "_" k) && Str.all (fun c => negb (is_upper c)) k)%bool.

(** A value as the reader leaves it: an integer that is not negative, or
    a text that is not a number. *)
Definition file_value (v : pyval) : bool :=
  match v with
  | VInt z => Z.leb 0 z
  | VStr s => negb (Str.isdigit s)
  | VBool _ => false
  end.

Definition normal_entry (e : string * pyval) : bool :=
  (normal_key (fst e) && file_value (snd e))%bool.

(** A key as configuration files write them: no lower-case letter and no
    hyphen. *)
Definition plain_key (k : string) : bool :=
  Str.all (fun c => negb (is_lower c) && negb (Ascii.eqb c "-"))%bool k.

(** A file with a line that does not parse after two that do. *)
Definition broken_file : list string :=
  [ ("LIMA_ENABLE_PYTHON=1" ++ nl)%string;
    ("LIMACAMERA_SIMULATOR=1" ++ nl)%string;
    ("LIMA_ENABLE_TIFF" ++ nl)%string;
    ("LIMA_ENABLE_TESTS=1" ++ nl)%string ].

Definition broken_entries : list (string * pyval) :=
  [ ("lima-enable-python", VInt 1); ("limacamera-simulator", VInt 1) ].



(** The checkout of [lima_world] without network: initialising a module
    fails. *)
Definition offline_world : World :=
  {| isdir := isdir lima_world;
     chdir := chdir lima_world;
     system := fun _ cmd =>
       if Str.startswith "git submodule init " cmd then 1%Z else 0%Z;
     git_submodule := git_submodule lima_world |}.

(** The checkout of [lima_world] on a machine where every [cmake]
    command fails. *)
Definition no_cmake_world : World :=
  {| isdir := isdir lima_world;
     chdir := chdir lima_world;
     system := fun _ cmd => if Str.startswith "cmake " cmd then 1%Z else 0%Z;
     git_submodule := git_submodule lima_world |}.

(** The object decoded from [simulator] in [/home/u/lima], before and
    after it has read [sample_file], and the command lines it gives. *)
Definition simulator_cfg : Config :=
  {| cmd_opts := [ ("source-prefix", VStr "/home/u/lima");
                   ("config-file", VStr "/home/u/lima/scripts/config.txt");
                   ("build-prefix", VStr "/home/u/lima/build") ];
     extra_opts := ["simulator"];
     config_opts := None |}.

Definition simulator_line : string :=
  ("cmake /home/u/lima -G" ++ dquote ++ "Unix Makefiles" ++ dquote
   ++ " -DLIMACAMERA_SIMULATOR=1 -DLIMA_ENABLE_TIFF=1"
   ++ " -DCMAKE_BUILD_TYPE=RelWithDebInfo")%string.

Definition in_build_dir : proc :=
  {| cwd := "/home/u/lima/build"; log := [] |}.

(* ====================================================================== *)
(** * Properties *)
(* ====================================================================== *)

(** ** The sample runs *)

Lemma sample_cfg_decoded :
  make_config linux "/home/u/lima"
    ["--build-type=Debug"; "camera/simulator"; "python"]
  = Ok sample_cfg.
Proof. reflexivity. Qed.

Lemma git_cfg_decoded : make_config linux lima_root ["--git"] = Ok git_cfg.
Proof. reflexivity. Qed.

(** The walk goes down into the module Processlib declares. *)
Lemma nested_walk :
  check_submodules linux nested_world 10 git_cfg None start
  = (Ok tt,
     {| cwd := lima_root;
        log :=
          [ (lima_root, "git submodule init third-party/Processlib");
            (lima_root, "git submodule update third-party/Processlib");
            ("/home/u/lima/third-party/Processlib", "git submodule init");
            ("/home/u/lima/third-party/Processlib",
             "git submodule init core/sip");
            ("/home/u/lima/third-party/Processlib",
             "git submodule update core/sip");
            ("/home/u/lima/third-party/Processlib/core/sip",
             "git submodule init") ] |}).
Proof. reflexivity. Qed.

Lemma sample_file_read :
  get_config_options linux sample_fs sample_cfg
  = (Ok sample_entries, with_config_opts sample_cfg sample_entries).
Proof. reflexivity. Qed.

Lemma cmd_option_examples :
  cmd_option ("install-prefix", VStr "/opt/x") = "-DINSTALL_PREFIX=/opt/x"
  /\ cmd_option ("lima-enable-python", VBool true) = "-DLIMA_ENABLE_PYTHON=1"
  /\ cmd_option ("cmake-cxx-flags", VStr "-O2 -g")
     = ("-DCMAKE_CXX_FLAGS=" ++ dquote ++ "-O2 -g" ++ dquote)%string.
Proof. repeat split. Qed.

(** ** Flag tokens *)

Lemma uint_string_no_space (d : uint) :
  Str.contains " " (NilEmpty.string_of_uint d) = false.
Proof. induction d; simpl; auto. Qed.

Lemma of_int_no_space (z : Z) : Str.contains " " (Str.of_int z) = false.
Proof.
  unfold Str.of_int, NilZero.string_of_int.
  destruct (Z.to_int z) as [d | d]; unfold NilZero.string_of_uint;
    destruct d; simpl; auto using uint_string_no_space.
Qed.

Lemma quoted_spec (v : pyval) : quoted v = spec_flag_value v.
Proof.
  destruct v as [[|] | z | s]; try reflexivity.
  - unfold quoted. rewrite of_int_no_space. reflexivity.
  - unfold quoted, spec_flag_value.
    destruct (Str.contains " " s), (Str.startswith dquote s); reflexivity.
Qed.

(** C8.  Every resolved option handed to the translator yields exactly one
    flag token, the token is [-D<NAME>=<value>] with the name in upper
    case and underscores for hyphens, a boolean written 1 or 0, and a
    string holding a space wrapped in double quotes unless it already
    starts with one; the command line carries these tokens, in order,
    after the source path and the generator. *)
Theorem cmd_option_flag_form (P : Platform) (cfg : Config)
  (cmake_opts : list (string * pyval)) :
  List.map cmd_option cmake_opts = List.map spec_flag cmake_opts
  /\ List.length (List.map cmd_option cmake_opts) = List.length cmake_opts
  /\ configure_line P cfg cmake_opts
     = (do cmake_gen <- cmake_generator P;
        do source_prefix <- get P cfg "source-prefix";
        match source_prefix with
        | VStr sp =>
            Ok (Str.join " "
                  (["cmake"; sp; ("-G" ++ dquote ++ cmake_gen ++ dquote)%string]
                   ++ List.map spec_flag cmake_opts))
        | _ => Raise TypeError
        end).
Proof.
  assert (H : List.map cmd_option cmake_opts = List.map spec_flag cmake_opts).
  { apply map_ext. intros [o v]. unfold cmd_option, spec_flag. simpl.
    rewrite quoted_spec. reflexivity. }
  split; [exact H |]. split; [apply length_map |].
  unfold configure_line, get_cmd_line_from_options. now rewrite H.
Qed.

(** ** Activation *)

Lemma is_active_spec (v : pyval) : truthy (is_active v) = spec_active v.
Proof.
  destruct v as [b | z | s]; try reflexivity.
  unfold is_active, spec_active, truthy.
  destruct (String.eqb s "") eqn:Hs; simpl; [now rewrite Hs |].
  change (Str.of_int 0) with "0".
  destruct (String.eqb (Str.lower s) "0"), (String.eqb (Str.lower s) "no");
    reflexivity.
Qed.

(** What the loop over the configuration entries appends. *)
Lemma config_pass_spec (cmd : dict) (l : list (string * pyval)) :
  forall acc out,
    config_pass cmd l acc = Ok out ->
    exists added,
      out = acc ++ added
      /\ (forall o v, In (o, v) added -> spec_active v = true)
      /\ (forall o val v, In (o, val) l -> override o val cmd = Ok v ->
                          spec_active v = true -> In (o, v) added).
Proof.
  induction l as [| [opt val] l IH]; intros acc out H; simpl in H.
  - injection H as <-. exists []. rewrite app_nil_r.
    repeat split; intros; contradiction.
  - destruct (override opt val cmd) as [v0 | e] eqn:Hov; simpl in H;
      [| discriminate].
    apply IH in H. destruct H as (added & -> & Hact & Hin).
    rewrite is_active_spec.
    destruct (spec_active v0) eqn:Hv0.
    + exists ((opt, v0) :: added). rewrite <- app_assoc. simpl.
      repeat split.
      * intros o v [Heq | Hi]; [injection Heq as <- <-; assumption | eauto].
      * intros o val' v [Heq | Hi] Ho Ha.
        -- injection Heq as <- <-. rewrite Hov in Ho. injection Ho as <-.
           now left.
        -- right. eauto.
    + exists added. repeat split; auto.
      intros o val' v [Heq | Hi] Ho Ha; [| eauto].
      injection Heq as <- <-. rewrite Hov in Ho. injection Ho as <-.
      congruence.
Qed.

(** What the loop over the fixed table appends. *)
Lemma cmake_pass_spec (P : Platform) (cfg : Config)
  (table : list (string * string)) :
  forall acc out,
    cmake_pass P cfg table acc = Ok out ->
    exists added,
      out = acc ++ added
      /\ (forall o v, In (o, v) added -> spec_active v = true).
Proof.
  induction table as [| [cmd_key cmake_key] table IH]; intros acc out H;
    simpl in H.
  - injection H as <-. exists []. rewrite app_nil_r. split; [reflexivity |].
    intros; contradiction.
  - destruct (get P cfg cmd_key) as [v0 | e]; simpl in H; [| discriminate].
    apply IH in H. destruct H as (added & -> & Hact).
    rewrite is_active_spec.
    destruct (spec_active v0) eqn:Hv0; simpl.
    + destruct (dict_mem (dict_of_list acc) cmake_key); simpl.
      * exists added. split; auto.
      * exists ((cmake_key, v0) :: added). rewrite <- app_assoc. simpl.
        split; [reflexivity |].
        intros o v [Heq | Hi]; [injection Heq as <- <-; assumption | eauto].
    + exists added. split; auto.
Qed.

(** C7.  The code's activation test is the activation rule of the
    specification; every option in the resolved set passes it, so an
    option whose value is inactive is never emitted; and a configuration
    entry is in the resolved set exactly when its value, after the
    command-line overrides, is active. *)
Theorem active_iff_emitted (P : Platform) (cfg : Config)
  (config_opts out : list (string * pyval)) :
  resolve_options P cfg config_opts = Ok out ->
  (forall v, truthy (is_active v) = spec_active v)
  /\ (forall o v, In (o, v) out -> spec_active v = true)
  /\ (forall opt val v,
         In (opt, val) config_opts ->
         override opt val (get_cmd_options P cfg false) = Ok v ->
         (spec_active v = true <-> In (opt, v) out)).
Proof.
  unfold resolve_options. intros H.
  destruct (config_pass (get_cmd_options P cfg false) config_opts [])
    as [mid | e] eqn:Hmid; cbv beta iota delta [bind] in H; [| discriminate].
  apply config_pass_spec in Hmid. destruct Hmid as (a1 & -> & Hact1 & Hin1).
  apply cmake_pass_spec in H. destruct H as (a2 & -> & Hact2).
  simpl in *.
  assert (Hall : forall o v, In (o, v) (a1 ++ a2) -> spec_active v = true).
  { intros o v Hi. apply in_app_or in Hi. destruct Hi; eauto. }
  split; [exact is_active_spec |]. split; [exact Hall |].
  intros opt val v Hi Ho. split.
  - intros Ha. apply in_or_app. left. eauto.
  - apply Hall.
Qed.

Lemma active_iff_emitted_witness :
  resolve_options linux sample_cfg sample_entries = Ok sample_resolved
  /\ (forall v, truthy (is_active v) = spec_active v)
  /\ (forall o v, In (o, v) sample_resolved -> spec_active v = true)
  /\ (forall opt val v,
         In (opt, val) sample_entries ->
         override opt val (get_cmd_options linux sample_cfg false) = Ok v ->
         (spec_active v = true <-> In (opt, v) sample_resolved)).
Proof.
  split; [reflexivity |].
  apply (active_iff_emitted linux sample_cfg sample_entries sample_resolved).
  reflexivity.
Defined.

(** ** Determinism of the configure command line *)




(** ** Paths after decoding *)

Lemma dict_get_set_same (d : dict) (k : string) (v : pyval) :
  dict_get (dict_set d k v) k = Some v.
Proof.
  induction d as [| [k' v'] d IH]; simpl.
  - now rewrite String.eqb_refl.
  - destruct (String.eqb k' k) eqn:E; simpl; rewrite E; auto.
Qed.

Lemma dict_get_set_other (d : dict) (k k' : string) (v : pyval) :
  k <> k' -> dict_get (dict_set d k v) k' = dict_get d k'.
Proof.
  intros Hne. induction d as [| [k0 v0] d IH]; simpl.
  - destruct (String.eqb_spec k k'); [contradiction | reflexivity].
  - destruct (String.eqb_spec k0 k) as [-> | Hk]; simpl.
    + destruct (String.eqb_spec k k'); [contradiction | reflexivity].
    + destruct (String.eqb k0 k'); auto.
Qed.

Lemma get_set_cmd_same (P : Platform) (cfg : Config) (k : string) (v : pyval) :
  get P (set_cmd cfg k v) k = Ok v.
Proof. unfold get, set_cmd; simpl. now rewrite dict_get_set_same. Qed.

Lemma get_set_cmd_other (P : Platform) (cfg : Config) (k k' : string)
  (v : pyval) :
  k <> k' -> get P (set_cmd cfg k v) k' = get P cfg k'.
Proof.
  intros H. unfold get, set_cmd; simpl. now rewrite dict_get_set_other.
Qed.


(** What [absolutize] leaves under the name it treats, and under the
    others. *)
Lemma absolutize_spec (P : Platform) (cwd opt : string) (cfg cfg' : Config) :
  absolutize P cwd opt cfg = Ok cfg' ->
  (forall k, k <> opt -> get P cfg' k = get P cfg k)
  /\ (forall s, get P cfg opt = Ok (VStr s) -> s <> "" ->
                get P cfg' opt
                = Ok (VStr (if isabs s then s else path_join cwd s))).
Proof.
  unfold absolutize. intros H.
  destruct (get P cfg opt) as [p | e] eqn:Hp; simpl in H; [| discriminate].
  destruct (truthy p) eqn:Ht.
  - destruct p as [b | z | s]; try discriminate.
    destruct (isabs s) eqn:Ha; simpl in H; injection H as <-.
    + split; [reflexivity |].
      intros s' Hs' _. injection Hs' as <-. now rewrite Ha.
    + split.
      * intros k Hk. apply get_set_cmd_other. congruence.
      * intros s' Hs' _. injection Hs' as <-. rewrite Ha.
        apply get_set_cmd_same.
  - injection H as <-. split; [reflexivity |].
    intros s Hs Hne. injection Hs as ->. simpl in Ht.
    destruct (String.eqb_spec s ""); [contradiction | discriminate].
Qed.



(** ** Installation *)

Lemma dict_set_fresh (d : dict) (k : string) (v : pyval) :
  ~ In k (List.map fst d) -> dict_set d k v = d ++ [(k, v)].
Proof.
  induction d as [| [k' v'] d IH]; simpl; intros Hn; [reflexivity |].
  destruct (String.eqb_spec k' k) as [-> | Hk].
  - exfalso. apply Hn. now left.
  - rewrite IH; [reflexivity |]. intros Hi. apply Hn. now right.
Qed.

Lemma dict_update_app (e : dict) :
  forall d, dict_wf (d ++ e) -> dict_update d e = d ++ e.
Proof.
  unfold dict_update, dict_wf.
  induction e as [| [k v] e IH]; intros d Hwf; simpl.
  - now rewrite app_nil_r.
  - rewrite dict_set_fresh.
    + rewrite IH; rewrite <- app_assoc; [reflexivity | exact Hwf].
    + rewrite map_app in Hwf. simpl in Hwf.
      apply NoDup_remove_2 in Hwf. intros Hi. apply Hwf.
      apply in_or_app. now left.
Qed.

Lemma dict_get_flags (f : string -> string) (v : pyval) (l : list string) :
  forall (d : dict) (k : string),
    dict_get (fold_left (fun opts arg => dict_set opts (f arg) v) l d) k
    = if mem k (List.map f l) then Some v else dict_get d k.
Proof.
  induction l as [| a l IH]; intros d k; simpl; [reflexivity |].
  rewrite IH. unfold mem. simpl.
  destruct (existsb (String.eqb k) (List.map f l)).
  - now rewrite orb_true_r.
  - rewrite orb_false_r.
    destruct (String.eqb_spec k (f a)) as [-> | Hk].
    + apply dict_get_set_same.
    + apply dict_get_set_other. congruence.
Qed.

(** The view [get_cmd_options()] gives of one name: a bare token always
    reads as [True], and hides the option of the same name. *)
Lemma get_cmd_options_lookup (P : Platform) (cfg : Config) (k : string) :
  dict_wf (cmd_opts cfg) ->
  dict_get (get_cmd_options P cfg false) k
  = if mem k (List.map family_name (extra_opts cfg)) then Some (VBool true)
    else dict_get (cmd_opts cfg) k.
Proof.
  intros Hwf. unfold get_cmd_options.
  rewrite dict_get_flags, (dict_update_app _ []); auto.
Qed.

Lemma decode_arg_no_install (P : Platform) (cfg : Config) :
  decode_arg (List.map fst (defaults P)) "--no-install" cfg
  = decode_arg (List.map fst (defaults P)) "--install=no" cfg.
Proof. reflexivity. Qed.

Lemma decode_argv_no_install (P : Platform) (l1 l2 : list string) :
  forall cfg,
    decode_argv P (l1 ++ "--no-install" :: l2) cfg
    = decode_argv P (l1 ++ "--install=no" :: l2) cfg.
Proof.
  induction l1 as [| a l1 IH]; intros cfg.
  - change (decode_argv P l2
              (decode_arg (List.map fst (defaults P)) "--no-install" cfg)
            = decode_argv P l2
                (decode_arg (List.map fst (defaults P)) "--install=no" cfg)).
    now rewrite decode_arg_no_install.
  - rewrite <- !app_comm_cons.
    change (decode_argv P (a :: ?l) cfg)
      with (if is_help a then Raise NameError
            else decode_argv P l
                   (decode_arg (List.map fst (defaults P)) a cfg)).
    destruct (is_help a); [reflexivity | apply IH].
Qed.

(** C3, as the code has it.  [--no-install] decodes as [--install=no]
    wherever it stands on the command line.  [is_install_required()]
    returns the [install] value of the command line when there is one,
    whatever the install prefix, and only when there is none does it
    tell whether an install prefix other than the empty string was
    supplied. *)
Theorem install_required_rule (P : Platform) (cwd : string)
  (l1 l2 : list string) (c0 cfg : Config) :
  decode_args P cwd (l1 ++ "--no-install" :: l2) c0
  = decode_args P cwd (l1 ++ "--install=no" :: l2) c0
  /\ is_install_required P cfg
     = match dict_get (get_cmd_options P cfg false) "install" with
       | Some v => v
       | None => VBool (prefix_supplied P cfg)
       end
  /\ (dict_wf (cmd_opts cfg) ->
      dict_get (get_cmd_options P cfg false) "install"
      = if mem "install" (List.map family_name (extra_opts cfg))
        then Some (VBool true)
        else dict_get (cmd_opts cfg) "install").
Proof.
  split; [| split].
  - unfold decode_args. now rewrite decode_argv_no_install.
  - unfold is_install_required, prefix_supplied, dict_get_default.
    destruct (dict_get (get_cmd_options P cfg false) "install");
      [reflexivity |].
    destruct (dict_get (get_cmd_options P cfg false) "install-prefix");
      reflexivity.
  - apply get_cmd_options_lookup.
Qed.

(** C3 as stated fails: an install prefix was supplied, so the claim makes
    installation required, and the code answers that it is not. *)
Lemma install_required_counterexample :
  make_config linux "/home/u/lima" ["--no-install"; "--install-prefix=/opt/x"]
  = Ok no_install_cfg
  /\ dict_get (get_cmd_options linux no_install_cfg false) "install-prefix"
     = Some (VStr "/opt/x")
  /\ truthy (is_install_required linux no_install_cfg) = false
  /\ (truthy (VBool false) || negb (String.eqb "/opt/x" ""))%bool = true.
Proof. repeat split. Qed.

Lemma no_install_cfg_wf : dict_wf (cmd_opts no_install_cfg).
Proof.
  unfold dict_wf. simpl.
  repeat (constructor; [simpl; intuition discriminate |]). constructor.
Qed.

Lemma install_required_rule_witness :
  dict_wf (cmd_opts no_install_cfg)
  /\ decode_args linux "/home/u/lima"
       ([] ++ "--no-install" :: ["--install-prefix=/opt/x"]) new_config
     = decode_args linux "/home/u/lima"
         ([] ++ "--install=no" :: ["--install-prefix=/opt/x"]) new_config
  /\ is_install_required linux no_install_cfg = VBool false
  /\ dict_get (get_cmd_options linux no_install_cfg false) "install"
     = Some (VBool false).
Proof.
  destruct (install_required_rule linux "/home/u/lima" []
              ["--install-prefix=/opt/x"] new_config no_install_cfg)
    as (H1 & H2 & H3).
  split; [exact no_install_cfg_wf |].
  split; [exact H1 |].
  split; [rewrite H2; reflexivity |].
  rewrite (H3 no_install_cfg_wf). reflexivity.
Defined.

(** ** Facts on strings *)

Section StrFacts.

Local Open Scope string_scope.

Lemma str_app_assoc (a b c : string) : (a ++ b) ++ c = a ++ (b ++ c).
Proof. induction a as [| x a IH]; simpl; [reflexivity | now rewrite IH]. Qed.

Lemma str_app_nil_r (a : string) : a ++ "" = a.
Proof. induction a as [| x a IH]; simpl; [reflexivity | now rewrite IH]. Qed.

Lemma str_length_app (a b : string) :
  String.length (a ++ b) = String.length a + String.length b.
Proof. induction a as [| x a IH]; simpl; [reflexivity | now rewrite IH]. Qed.

Lemma str_length_zero (s : string) : String.length s = 0 -> s = "".
Proof. destruct s; [reflexivity | discriminate]. Qed.

Lemma take_drop (n : nat) (s : string) : Str.take n s ++ Str.drop n s = s.
Proof.
  revert s. induction n as [| n IH]; intros [| c s]; simpl; try reflexivity.
  now rewrite IH.
Qed.

Lemma take_app (a b : string) : Str.take (String.length a) (a ++ b) = a.
Proof. induction a as [| x a IH]; simpl; [now destruct b | now rewrite IH]. Qed.

Lemma drop_app (a b : string) : Str.drop (String.length a) (a ++ b) = b.
Proof. induction a as [| x a IH]; simpl; [reflexivity | exact IH]. Qed.

Lemma drop_drop (n m : nat) (s : string) :
  Str.drop n (Str.drop m s) = Str.drop (m + n) s.
Proof.
  revert s. induction m as [| m IH]; intros s; simpl; [reflexivity |].
  destruct s as [| c s]; [now destruct n | apply IH].
Qed.

Lemma length_take (n : nat) (s : string) :
  n <= String.length s -> String.length (Str.take n s) = n.
Proof.
  revert s. induction n as [| n IH]; intros [| c s] H; simpl in *;
    try reflexivity; try lia.
  rewrite IH; lia.
Qed.

Lemma length_drop (n : nat) (s : string) :
  String.length (Str.drop n s) = String.length s - n.
Proof.
  revert s. induction n as [| n IH]; intros [| c s]; simpl;
    try reflexivity; try lia. apply IH.
Qed.

Lemma startswith_app (p r : string) : Str.startswith p (p ++ r) = true.
Proof.
  induction p as [| x p IH]; simpl; [reflexivity |].
  now rewrite Ascii.eqb_refl.
Qed.

Lemma startswith_inv (p s : string) :
  Str.startswith p s = true -> s = p ++ Str.drop (String.length p) s.
Proof.
  revert s. induction p as [| x p IH]; intros s H; simpl in *;
    [reflexivity |].
  destruct s as [| y s]; [discriminate |].
  apply andb_true_iff in H. destruct H as [Hxy Hp].
  apply Ascii.eqb_eq in Hxy. subst y. simpl. f_equal. now apply IH.
Qed.

Lemma startswith_nil_r (p : string) : p <> "" -> Str.startswith p "" = false.
Proof. destruct p; [congruence | reflexivity]. Qed.

Lemma last_app_char (p : string) (c : ascii) :
  Str.last (p ++ String c "") = Some c.
Proof.
  induction p as [| x p IH]; simpl; [reflexivity |].
  rewrite IH. destruct (p ++ String c "") eqn:E; [| reflexivity].
  destruct p; discriminate.
Qed.

Lemma last_some (s : string) (c : ascii) :
  Str.last s = Some c -> exists p, s = p ++ String c "".
Proof.
  induction s as [| x s IH]; simpl; [discriminate |].
  destruct s as [| y s].
  - intros H. injection H as ->. now exists "".
  - intros H. destruct (IH H) as [p Hp]. exists (String x p).
    simpl. now rewrite <- Hp.
Qed.

Lemma find_nil_r (sub : string) : sub <> "" -> Str.find sub "" = None.
Proof. intros H. simpl. now rewrite startswith_nil_r. Qed.

(** Where [find] answers, the string reads: what is before, the
    substring, what is after. *)
Lemma find_some (sub s : string) (i : nat) :
  Str.find sub s = Some i ->
  s = Str.take i s ++ sub ++ Str.drop (i + String.length sub) s
  /\ i + String.length sub <= String.length s.
Proof.
  revert i. induction s as [| c s IH]; intros i H; simpl in H.
  - destruct (Str.startswith sub "") eqn:E; [| discriminate].
    injection H as <-. destruct sub; [| discriminate]. simpl. auto.
  - destruct (Str.startswith sub (String c s)) eqn:E.
    + injection H as <-. apply startswith_inv in E.
      split; [exact E |].
      apply (f_equal String.length) in E. rewrite str_length_app in E.
      simpl in *. lia.
    + destruct (Str.find sub s) as [j |]; [| discriminate].
      injection H as <-. destruct (IH j eq_refl) as [H1 H2].
      split; [| simpl; lia].
      simpl. f_equal. exact H1.
Qed.

(** The bound on the number of cuts does not matter once it reaches the
    length of the string. *)
Lemma split_upto_enough (sep : string) :
  sep <> "" ->
  forall n m s,
    String.length s <= n -> String.length s <= m ->
    Str.split_upto n sep s = Str.split_upto m sep s.
Proof.
  intros Hsep. induction n as [| n IH]; intros m s Hn Hm.
  - assert (s = "") by (apply str_length_zero; lia). subst s.
    destruct m; simpl; now rewrite startswith_nil_r.
  - destruct m as [| m].
    + assert (s = "") by (apply str_length_zero; lia). subst s.
      simpl. now rewrite startswith_nil_r.
    + simpl. destruct (Str.find sep s) as [i |] eqn:Hf; [| reflexivity].
      f_equal. apply find_some in Hf. destruct Hf as [_ Hlen].
      assert (0 < String.length sep)
        by (destruct sep; [congruence | simpl; lia]).
      apply IH; rewrite length_drop; lia.
Qed.

Lemma split_none (sep s : string) :
  Str.find sep s = None -> Str.split sep s = [s].
Proof.
  intros H. unfold Str.split. destruct (String.length s); simpl; now rewrite H.
Qed.

Lemma split_some (sep s : string) (i : nat) :
  sep <> "" -> Str.find sep s = Some i ->
  Str.split sep s
  = Str.take i s :: Str.split sep (Str.drop (i + String.length sep) s).
Proof.
  intros Hsep H. unfold Str.split.
  destruct (String.length s) as [| n] eqn:Hn.
  - apply str_length_zero in Hn. subst s.
    rewrite find_nil_r in H by assumption. discriminate.
  - simpl. rewrite H. f_equal.
    apply split_upto_enough; [assumption | | lia].
    apply find_some in H. destruct H as [_ Hlen].
    assert (0 < String.length sep)
      by (destruct sep; [congruence | simpl; lia]).
    rewrite length_drop. lia.
Qed.

(** A split with one piece has cut nothing. *)
Lemma split_singleton (sep s t : string) :
  sep <> "" -> Str.split sep s = [t] -> t = s /\ Str.find sep s = None.
Proof.
  intros Hsep H. destruct (Str.find sep s) as [i |] eqn:Hf.
  - rewrite (split_some _ _ _ Hsep Hf) in H. injection H as _ H.
    exfalso. revert H. generalize (Str.drop (i + String.length sep) s).
    intros r. destruct (Str.find sep r) eqn:Hr.
    + rewrite (split_some _ _ _ Hsep Hr). discriminate.
    + rewrite (split_none _ _ Hr). discriminate.
  - rewrite (split_none _ _ Hf) in H. injection H as <-. auto.
Qed.

End StrFacts.

(** ** Command-line overrides of configuration entries *)

Lemma overrides_suffix (cmd opt : string) :
  cmd <> opt -> suffix_match cmd opt -> overrides cmd opt = Ok true.
Proof.
  intros Hne (Hcmd & p & Hopt & Hfind). unfold overrides.
  destruct (String.eqb_spec cmd opt); [contradiction |].
  destruct (String.eqb_spec cmd ""); [contradiction |].
  rewrite (split_some _ _ _ Hcmd Hfind).
  assert (Hopt' : opt = ((p ++ "-") ++ cmd)%string)
    by (rewrite str_app_assoc; exact Hopt).
  assert (Hlen : S (String.length p) = String.length (p ++ "-")%string)
    by (rewrite str_length_app; simpl; lia).
  assert (Htake : Str.take (S (String.length p)) opt = (p ++ "-")%string).
  { rewrite Hlen, Hopt'. apply take_app. }
  assert (Hdrop : Str.drop (S (String.length p) + String.length cmd) opt = "").
  { rewrite <- drop_drop, Hlen. rewrite Hopt' at 1. rewrite drop_app.
    rewrite <- (str_app_nil_r cmd) at 2. apply drop_app. }
  rewrite Htake, Hdrop, (split_none cmd ""), last_app_char.
  - reflexivity.
  - now apply find_nil_r.
Qed.

Lemma overrides_true_inv (cmd opt : string) :
  overrides cmd opt = Ok true -> cmd = opt \/ suffix_match cmd opt.
Proof.
  unfold overrides.
  destruct (String.eqb_spec cmd opt) as [-> | Hne]; [now left |].
  destruct (String.eqb_spec cmd "") as [-> | Hcmd]; [discriminate |].
  destruct (Str.split cmd opt) as [| t0 [| t1 [| t2 l]]] eqn:Hs;
    try discriminate.
  destruct (Str.last t0) as [c |] eqn:Hlast; [| discriminate].
  intros H. injection H as H. apply andb_true_iff in H. destruct H as [Hc Ht1].
  apply Ascii.eqb_eq in Hc. subst c.
  simpl in Ht1. rewrite negb_involutive in Ht1. apply String.eqb_eq in Ht1.
  subst t1. right. split; [assumption |].
  destruct (Str.find cmd opt) as [i |] eqn:Hf.
  - rewrite (split_some _ _ _ Hcmd Hf) in Hs. injection Hs as Ht0 Hrest.
    apply split_singleton in Hrest; [| assumption].
    destruct Hrest as [Hrest _].
    destruct (find_some _ _ _ Hf) as [Hopt Hlen].
    rewrite <- Hrest, str_app_nil_r, Ht0 in Hopt.
    apply last_some in Hlast. destruct Hlast as [p Hp].
    exists p. split.
    + rewrite Hopt, Hp. apply str_app_assoc.
    + f_equal. rewrite <- Ht0 in Hp.
      apply (f_equal String.length) in Hp.
      rewrite length_take, str_length_app in Hp by lia. simpl in Hp. lia.
  - rewrite (split_none _ _ Hf) in Hs. discriminate.
Qed.

(** The test of the code holds exactly for an equal name and for a name
    that ends [opt] after a hyphen. *)
Lemma overrides_true_iff (cmd opt : string) :
  overrides cmd opt = Ok true <-> cmd = opt \/ suffix_match cmd opt.
Proof.
  split; [apply overrides_true_inv |].
  intros [-> | H].
  - unfold overrides. now rewrite String.eqb_refl.
  - destruct (String.eqb_spec cmd opt) as [-> | Hne].
    + unfold overrides. now rewrite String.eqb_refl.
    + now apply overrides_suffix.
Qed.

(** A name that does not occur in [opt] is passed over. *)
Lemma overrides_absent (cmd opt : string) :
  cmd <> "" -> Str.find cmd opt = None -> overrides cmd opt = Ok false.
Proof.
  intros Hcmd Hf. unfold overrides.
  destruct (String.eqb_spec cmd opt) as [-> | Hne].
  - exfalso. destruct opt as [| c opt]; [congruence |].
    simpl in Hf. rewrite Ascii.eqb_refl in Hf.
    rewrite <- (str_app_nil_r opt) in Hf at 2.
    rewrite startswith_app in Hf. discriminate.
  - destruct (String.eqb_spec cmd ""); [contradiction |].
    now rewrite (split_none _ _ Hf).
Qed.

(** C1, as the code has it.  For a configuration entry [(opt, val)], the
    first command-line option, in iteration order, whose name is [opt] or
    ends [opt] after a hyphen ([opt == prefix + '-' + name], the name not
    occurring earlier in [opt]) gives the entry its value, the test on the
    options before it having come out false. *)
Theorem override_first_match (opt : string) (val : pyval)
  (before after : dict) (cmd : string) (v : pyval) :
  (forall c v', In (c, v') before -> overrides c opt = Ok false) ->
  cmd = opt \/ suffix_match cmd opt ->
  override opt val (before ++ (cmd, v) :: after) = Ok v.
Proof.
  intros Hbefore Hmatch. apply overrides_true_iff in Hmatch.
  induction before as [| [c v'] before IH]; simpl.
  - now rewrite Hmatch.
  - rewrite (Hbefore c v') by now left. simpl.
    apply IH. intros c0 v0 Hi. apply (Hbefore c0 v0). now right.
Qed.

Lemma override_first_match_witness :
  (forall c v', In (c, v') [("build-type", VStr "Debug")] ->
                overrides c "lima-enable-python" = Ok false)
  /\ suffix_match "python" "lima-enable-python"
  /\ override "lima-enable-python" (VInt 0)
       ([("build-type", VStr "Debug")] ++ ("python", VBool true)
          :: [("enable-python", VBool false)])
     = Ok (VBool true).
Proof.
  assert (H1 : forall c v', In (c, v') [("build-type", VStr "Debug")] ->
                            overrides c "lima-enable-python" = Ok false).
  { intros c v' [Heq | []]. injection Heq as <- _. reflexivity. }
  assert (H2 : suffix_match "python" "lima-enable-python").
  { split; [discriminate |]. exists "lima-enable". split; reflexivity. }
  split; [exact H1 |]. split; [exact H2 |].
  apply (override_first_match "lima-enable-python" (VInt 0)
           [("build-type", VStr "Debug")] [("enable-python", VBool false)]
           "python" (VBool true) H1 (or_intror H2)).
Defined.

(** C1 as stated fails.  [lima-enable] is a prefix of the entry name,
    followed by a hyphen; the test raises and nothing is substituted.
    [test] is such a prefix of [test-latest] too; the entry keeps its
    value. *)
Lemma override_prefix_counterexample :
  "lima-enable-python" = ("lima-enable" ++ "-" ++ "python")%string
  /\ override "lima-enable-python" (VInt 0) [("lima-enable", VBool true)]
     = Raise IndexError
  /\ "test-latest" = ("test" ++ "-" ++ "latest")%string
  /\ override "test-latest" (VInt 0) [("test", VBool true)] = Ok (VInt 0).
Proof. repeat split. Qed.

(** ** Reading the configuration file *)

Section SplitChar.

Local Open Scope string_scope.

Variable c : ascii.

Let sep : string := String c "".

Lemma sep_not_empty : sep <> "".
Proof. discriminate. Qed.

Lemma find_char_cons (b : ascii) (s : string) :
  Str.find sep (String b s)
  = if Ascii.eqb c b then Some 0 else option_map S (Str.find sep s).
Proof. simpl. destruct (Ascii.eqb c b); reflexivity. Qed.

Lemma find_char_none (s : string) :
  Str.find sep s = None <-> Str.contains c s = false.
Proof.
  induction s as [| b s IH]; [simpl; tauto |].
  rewrite find_char_cons. simpl. rewrite (Ascii.eqb_sym b c).
  destruct (Ascii.eqb c b); simpl; [split; discriminate |].
  rewrite <- IH. destruct (Str.find sep s); simpl; split; congruence.
Qed.

Lemma split_char_nil : Str.split sep "" = [""].
Proof. reflexivity. Qed.

(** Splitting at one character, read from the left. *)
Lemma split_char_cons (b : ascii) (s : string) :
  Str.split sep (String b s)
  = if Ascii.eqb c b then "" :: Str.split sep s
    else match Str.split sep s with
         | h :: t => String b h :: t
         | [] => []
         end.
Proof.
  destruct (Ascii.eqb c b) eqn:E.
  - rewrite (split_some sep (String b s) 0 sep_not_empty).
    + reflexivity.
    + rewrite find_char_cons, E. reflexivity.
  - destruct (Str.find sep s) as [i |] eqn:Hf.
    + rewrite (split_some sep (String b s) (S i) sep_not_empty).
      * rewrite (split_some sep s i sep_not_empty Hf). reflexivity.
      * rewrite find_char_cons, E, Hf. reflexivity.
    + rewrite (split_none sep (String b s)).
      * rewrite (split_none sep s Hf). reflexivity.
      * rewrite find_char_cons, E, Hf. reflexivity.
Qed.

Lemma split_char_length (s : string) :
  List.length (Str.split sep s) = S (Str.count c s).
Proof.
  induction s as [| b s IH]; [reflexivity |].
  rewrite split_char_cons. simpl. rewrite (Ascii.eqb_sym b c).
  destruct (Ascii.eqb c b); simpl; [now rewrite IH |].
  destruct (Str.split sep s); simpl in *; [discriminate | exact IH].
Qed.

Lemma split_char_two (s k v : string) :
  Str.split sep s = [k; v]
  <-> s = k ++ sep ++ v
      /\ Str.contains c k = false /\ Str.contains c v = false.
Proof.
  revert k. induction s as [| b s IH]; intros k.
  - split; [discriminate |]. intros [H _]. destruct k; discriminate.
  - rewrite split_char_cons. destruct (Ascii.eqb c b) eqn:E.
    + apply Ascii.eqb_eq in E. subst b. split.
      * intros H. injection H as <- H.
        apply split_singleton in H; [| exact sep_not_empty].
        destruct H as [-> H]. apply find_char_none in H. auto.
      * intros (H & Hk & Hv). destruct k as [| x k]; simpl in H.
        -- injection H as ->. apply find_char_none in Hv.
           now rewrite (split_none sep v Hv).
        -- injection H as <- _. simpl in Hk.
           rewrite Ascii.eqb_refl in Hk. discriminate.
    + split.
      * destruct (Str.split sep s) as [| h t] eqn:Hs; [discriminate |].
        intros H. injection H as <- ->.
        destruct (proj1 (IH h) eq_refl) as (-> & Hh & Hv).
        simpl. rewrite (Ascii.eqb_sym b c), E, Hh. auto.
      * intros (H & Hk & Hv). destruct k as [| x k]; simpl in H.
        -- injection H as -> _. rewrite Ascii.eqb_refl in E. discriminate.
        -- injection H as -> ->. simpl in Hk.
           apply orb_false_iff in Hk. destruct Hk as [_ Hk].
           rewrite (proj2 (IH k)); auto.
Qed.

End SplitChar.

Lemma lstrip_blank (s : string) : Str.lstrip s = "" <-> blank s = true.
Proof.
  unfold blank. induction s as [| x s IH]; simpl; [tauto |].
  destruct (Str.isspace x); simpl; [exact IH | split; discriminate].
Qed.

Lemma rstrip_blank (s : string) : Str.rstrip s = "" <-> blank s = true.
Proof.
  unfold blank. induction s as [| x s IH]; simpl; [tauto |].
  destruct (Str.rstrip s) eqn:Er.
  - destruct (Str.isspace x); simpl.
    + rewrite <- IH. tauto.
    + split; discriminate.
  - split; [discriminate |]. intros H. apply andb_true_iff in H.
    destruct H as [_ H]. apply IH in H. discriminate.
Qed.

Lemma lstrip_not_blank (s : string) (x : ascii) (r : string) :
  Str.lstrip s = String x r -> Str.isspace x = false.
Proof.
  induction s as [| y s IH]; simpl; [discriminate |].
  destruct (Str.isspace y) eqn:E; [exact IH |].
  intros H. injection H as <- _. exact E.
Qed.

Lemma rstrip_head (x : ascii) (r : string) :
  Str.isspace x = false -> exists r', Str.rstrip (String x r) = String x r'.
Proof.
  intros H. simpl. destruct (Str.rstrip r); rewrite ?H; eauto.
Qed.

(** The test of [read_config] skips the blank lines and the comments. *)
Lemma skip_test (line : string) :
  (String.eqb (Str.strip line) "" || Str.startswith "#" (Str.strip line))%bool
  = skipped line.
Proof.
  unfold skipped, comment, Str.strip.
  destruct (Str.lstrip line) as [| x r] eqn:El.
  - simpl. apply lstrip_blank in El. now rewrite El.
  - assert (Hb : blank line = false).
    { destruct (blank line) eqn:Hb; [| reflexivity].
      apply lstrip_blank in Hb. congruence. }
    rewrite Hb. destruct (rstrip_head x r (lstrip_not_blank _ _ _ El))
      as [r' ->]. reflexivity.
Qed.

Lemma read_line_skipped (line : string) :
  skipped line = true -> read_line line = Ok None.
Proof. intros H. unfold read_line. now rewrite skip_test, H. Qed.

Lemma read_line_entry (line : string) :
  skipped line = false -> Str.count "=" (Str.strip line) = 1 ->
  exists e, read_line line = Ok (Some e) /\ entry_of line e.
Proof.
  intros Hs Hc. unfold read_line. rewrite skip_test, Hs.
  pose proof (split_char_length "=" (Str.strip line)) as Hl.
  rewrite Hc in Hl.
  destruct (Str.split "=" (Str.strip line)) as [| k [| v [| x l]]] eqn:E;
    try discriminate.
  apply split_char_two in E. destruct E as (E & Hk & Hv).
  exists (spec_entry k v). split; [reflexivity |].
  exists k, v. auto.
Qed.

Lemma read_line_fails (line : string) :
  skipped line = false -> Str.count "=" (Str.strip line) <> 1 ->
  read_line line = Raise ValueError.
Proof.
  intros Hs Hc. unfold read_line. rewrite skip_test, Hs.
  pose proof (split_char_length "=" (Str.strip line)) as Hl.
  destruct (Str.split "=" (Str.strip line)) as [| k [| v [| x l]]];
    try reflexivity.
  simpl in Hl. exfalso. apply Hc. lia.
Qed.

Lemma read_lines_ok (lines : list string) :
  forall acc,
    forallb one_separator (kept lines) = true ->
    exists es, read_lines lines acc = (Ok tt, acc ++ es)
               /\ Forall2 entry_of (kept lines) es.
Proof.
  unfold kept. induction lines as [| line lines IH]; intros acc H; simpl in *.
  - exists []. rewrite app_nil_r. split; constructor.
  - destruct (skipped line) eqn:Hs; simpl in H |- *.
    + rewrite (read_line_skipped _ Hs). apply IH, H.
    + apply andb_true_iff in H. destruct H as [H1 H].
      apply Nat.eqb_eq in H1.
      destruct (read_line_entry _ Hs H1) as (e & -> & He).
      destruct (IH (acc ++ [e]) H) as (es & -> & Hes).
      exists (e :: es). rewrite <- app_assoc. split; [reflexivity |].
      now constructor.
Qed.





(** ** The submodule walk *)

Lemma locate_no_candidate (w : World) (st : proc) (submod : string) :
  no_candidate w st submod = true -> locate w st submod = None.
Proof.
  unfold no_candidate, locate, renamed. intros H.
  apply andb_true_iff in H. destruct H as [H H3].
  apply andb_true_iff in H. destruct H as [H1 H2].
  apply negb_true_iff in H1, H2, H3.
  destruct (mem submod not_submodules); [reflexivity |].
  cbn [search_dirs]. rewrite H1, H2, H3. reflexivity.
Qed.

Lemma locate_all_app (w : World) (st : proc) (l1 l2 : list string) :
  locate_all w st (l1 ++ l2) = locate_all w st l1 ++ locate_all w st l2.
Proof.
  induction l1 as [| a l1 IH]; simpl; [reflexivity |].
  destruct (locate w st a); simpl; now rewrite IH.
Qed.

Lemma add_basic_unfold (l : list string) :
  add_basic l = if mem "Processlib" l then l else l ++ ["Processlib"].
Proof. reflexivity. Qed.

Lemma mem_cons (x a : string) (l : list string) :
  mem x (a :: l) = (String.eqb x a || mem x l)%bool.
Proof. reflexivity. Qed.

Lemma mem_app (x : string) (l1 l2 : list string) :
  mem x (l1 ++ l2) = (mem x l1 || mem x l2)%bool.
Proof. unfold mem. apply existsb_app. Qed.

Lemma locate_all_without (w : World) (st : proc) (l1 l2 : list string)
  (n : string) :
  locate w st n = None ->
  locate_all w st (add_basic (l1 ++ n :: l2))
  = locate_all w st (add_basic (l1 ++ l2)).
Proof.
  intros Hn.
  assert (Hcut : forall t, locate_all w st (l1 ++ n :: l2 ++ t)
                           = locate_all w st (l1 ++ l2 ++ t)).
  { intros t. rewrite (locate_all_app w st l1 (n :: l2 ++ t)).
    rewrite (locate_all_app w st l1 (l2 ++ t)).
    cbn [locate_all]. now rewrite Hn. }
  pose proof (Hcut []) as Hcut0. rewrite !app_nil_r in Hcut0.
  rewrite !add_basic_unfold, !mem_app, mem_cons.
  destruct (String.eqb_spec "Processlib" n) as [<- | Hne].
  - rewrite orb_true_l, orb_true_r.
    destruct (mem "Processlib" l1 || mem "Processlib" l2)%bool.
    + exact Hcut0.
    + rewrite Hcut0, (locate_all_app w st (l1 ++ l2)).
      cbn [locate_all]. now rewrite Hn, app_nil_r.
  - rewrite orb_false_l.
    destruct (mem "Processlib" l1 || mem "Processlib" l2)%bool.
    + exact Hcut0.
    + rewrite <- !app_assoc. apply (Hcut ["Processlib"]).
Qed.

(** C2, as the code has it.  A requested name none of whose candidate
    paths is a directory is passed over: the run goes on exactly as if
    the name had not been requested, so no command is issued for it and
    the run does not stop on its account. *)
Theorem unlocated_module_skipped (P : Platform) (w : World) (depth : nat)
  (cfg : Config) (l1 l2 : list string) (n : string) (st : proc) :
  (forall st', no_candidate w st' n = true) ->
  check_submodules P w depth cfg (Some (l1 ++ n :: l2)) st
  = check_submodules P w depth cfg (Some (l1 ++ l2)) st.
Proof.
  intros Hn. unfold check_submodules, iobind, lift.
  destruct (get P cfg "source-prefix") as [root | e]; [| reflexivity].
  unfold ch_dir, iobind, getcwd.
  destruct (os_chdir w root st) as [[[] | e] st1]; [| reflexivity].
  rewrite (locate_all_without w st1 l1 l2 n
             (locate_no_candidate w st1 n (Hn st1))).
  reflexivity.
Qed.

Lemma unlocated_module_skipped_witness :
  (forall st', no_candidate lima_world st' "nosuch" = true)
  /\ check_submodules linux lima_world 10 git_cfg
       (Some (["simulator"] ++ "nosuch" :: [])) start
     = check_submodules linux lima_world 10 git_cfg
         (Some (["simulator"] ++ [])) start.
Proof.
  assert (H : forall st', no_candidate lima_world st' "nosuch" = true).
  { intros st'. unfold no_candidate. simpl.
    destruct (String.eqb (cwd st') lima_root); reflexivity. }
  split; [exact H |].
  apply (unlocated_module_skipped linux lima_world 10 git_cfg
           ["simulator"] [] "nosuch" start H).
Defined.

(** C2 as stated fails: [nosuch] has no candidate path, and the run does
    not stop; it ends normally after updating Processlib. *)
Lemma unlocated_module_counterexample :
  no_candidate lima_world start "nosuch" = true
  /\ check_submodules linux lima_world 10 git_cfg (Some ["nosuch"]) start
     = (Ok tt,
        {| cwd := lima_root;
           log :=
             [ (lima_root, "git submodule init third-party/Processlib");
               (lima_root, "git submodule update third-party/Processlib");
               ("/home/u/lima/third-party/Processlib",
                "git submodule init") ] |}).
Proof. split; reflexivity. Qed.

(** *** The working directory *)

Lemma ch_dir_returns (w : World) (d : pyval) (body : io unit)
  (st st1 st2 : proc) :
  os_chdir w d st = (Ok tt, st1) -> body st1 = (Ok tt, st2) ->
  ch_dir w d body st = os_chdir w (VStr (cwd st)) st2.
Proof.
  intros H1 H2. unfold ch_dir, iobind, getcwd. now rewrite H1, H2.
Qed.

(** When the body raises, the directory entered is not left. *)
Lemma ch_dir_raises (w : World) (d : pyval) (body : io unit)
  (st st1 st2 : proc) (e : exn) :
  os_chdir w d st = (Ok tt, st1) -> body st1 = (Raise e, st2) ->
  ch_dir w d body st = (Raise e, st2).
Proof.
  intros H1 H2. unfold ch_dir, iobind, getcwd. now rewrite H1, H2.
Qed.

(** C5 fails on the code.  [git submodule init] fails inside Processlib:
    the run ends with [SystemExit] and the process is still in the
    directory of the module, not in the directory it started from. *)
Theorem ch_dir_not_restored_on_failure :
  cwd start = lima_root
  /\ fst (check_submodules linux broken_world 10 git_cfg (Some []) start)
     = Raise (SystemExit
                ("Problem with submodule third-party/Processlib: "
                 ++ " [git submodule init]"))
  /\ cwd (snd (check_submodules linux broken_world 10 git_cfg (Some []) start))
     = "/home/u/lima/third-party/Processlib".
Proof. repeat split. Qed.

(** *** Repeated updates *)








(** *** The normal exit *)

Lemma iobind_ok {A B : Type} (m : io A) (k : A -> io B) (st st' : proc)
  (b : B) :
  iobind m k st = (Ok b, st') ->
  exists a st1, m st = (Ok a, st1) /\ k a st1 = (Ok b, st').
Proof.
  unfold iobind. destruct (m st) as [[a | e] st1]; [eauto | discriminate].
Qed.

Lemma keeps_seq (m k : io unit) :
  keeps_cwd m -> keeps_cwd k -> keeps_cwd (m ;; k).
Proof.
  intros Hm Hk st st' Habs H.
  apply iobind_ok in H. destruct H as ([] & st1 & H1 & H2).
  apply Hm in H1; [| assumption].
  apply Hk in H2; congruence.
Qed.

Lemma keeps_exec_cmd (w : World) (cmd msg : string) :
  keeps_cwd (exec_cmd w cmd msg).
Proof.
  intros st st' _. unfold exec_cmd.
  destruct (negb _); intros H; [discriminate |].
  injection H as <-. reflexivity.
Qed.

Section NormalExit.

Variable w : World.

(** Changing to an absolute directory lands there. *)
Hypothesis chdir_absolute :
  forall st d r, isabs d = true -> chdir w st (VStr d) = Ok r -> r = d.

(** When the body returns, [ch_dir] goes back to where it started. *)
Lemma keeps_ch_dir (d : pyval) (body : io unit) : keeps_cwd (ch_dir w d body).
Proof.
  intros st st' Habs H. unfold ch_dir in H.
  apply iobind_ok in H. destruct H as (cur & st0 & H0 & H).
  unfold getcwd in H0. injection H0 as <- <-.
  apply iobind_ok in H. destruct H as ([] & st1 & _ & H).
  apply iobind_ok in H. destruct H as ([] & st2 & _ & H).
  unfold os_chdir in H.
  destruct (chdir w st2 (VStr (cwd st))) as [r | e] eqn:Hc; [| discriminate].
  injection H as <-. simpl. now apply chdir_absolute in Hc.
Qed.

(** When [update_submodule] returns, the process is in the directory it
    was called in. *)
Lemma update_submodule_restores (depth : nat) (submod : string) :
  keeps_cwd (update_submodule w depth submod).
Proof.
  destruct depth as [| depth]; intros st st' Habs H; [discriminate |].
  simpl in H. unfold try_except in H.
  match type of H with
  | context [iobind ?m ?k st] =>
      destruct (iobind m k st) as [[[] | e] s1] eqn:Hm
  end.
  - injection H as <-. revert st s1 Habs Hm.
    apply keeps_seq; [apply keeps_exec_cmd |].
    apply keeps_seq; [apply keeps_exec_cmd |].
    apply keeps_ch_dir.
  - destruct e; discriminate.
Qed.

End NormalExit.

(* ====================================================================== *)
(** * Further properties of the script *)
(* ====================================================================== *)

(** ** Decoding the command line *)

(** X1.  For every option name of the defaults, [--name=val] sets that
    name and no other, to a boolean for [yes] and [no] and to the text
    otherwise; [--name] sets it to [True] and [--no-name] to [False].  No
    name is taken for another that begins like it. *)
Theorem decode_arg_recognised (P : Platform) (opt val : string)
  (cfg : Config) :
  In opt (List.map fst (defaults P)) ->
  decode_arg (List.map fst (defaults P)) ("--" ++ opt ++ "=" ++ val) cfg
  = set_cmd cfg opt (option_value val)
  /\ decode_arg (List.map fst (defaults P)) ("--" ++ opt) cfg
     = set_cmd cfg opt (VBool true)
  /\ decode_arg (List.map fst (defaults P)) ("--no-" ++ opt) cfg
     = set_cmd cfg opt (VBool false).
Proof.
  intros H. simpl in H.
  repeat (destruct H as [<- | H]; [repeat split; reflexivity |]).
  contradiction.
Qed.

Lemma decode_arg_recognised_witness :
  In "install-prefix" (List.map fst (defaults linux))
  /\ decode_arg (List.map fst (defaults linux))
       ("--" ++ "install-prefix" ++ "=" ++ "/opt/x") new_config
     = set_cmd new_config "install-prefix" (option_value "/opt/x")
  /\ decode_arg (List.map fst (defaults linux)) ("--" ++ "install-prefix")
       new_config
     = set_cmd new_config "install-prefix" (VBool true)
  /\ decode_arg (List.map fst (defaults linux)) ("--no-" ++ "install-prefix")
       new_config
     = set_cmd new_config "install-prefix" (VBool false).
Proof.
  assert (H : In "install-prefix" (List.map fst (defaults linux)))
    by (simpl; tauto).
  split; [exact H |].
  apply (decode_arg_recognised linux "install-prefix" "/opt/x" new_config H).
Defined.

Lemma plain_not_option (a x : string) :
  Str.startswith "--" a = false ->
  String.eqb a ("--" ++ x) = false /\ Str.startswith ("--" ++ x) a = false.
Proof.
  intros H.
  destruct a as [| c1 [| c2 a]];
    cbn [Str.startswith String.eqb String.append] in *.
  - auto.
  - rewrite (Ascii.eqb_sym c1 "-").
    destruct (Ascii.eqb "-" c1); auto.
  - rewrite (Ascii.eqb_sym c1 "-"), (Ascii.eqb_sym c2 "-").
    destruct (Ascii.eqb "-" c1), (Ascii.eqb "-" c2);
      cbn [andb] in *; auto; discriminate H.
Qed.

Lemma decode_arg_plain (a : string) :
  Str.startswith "--" a = false ->
  forall names cfg, decode_arg names a cfg = add_extra cfg a.
Proof.
  intros Ha. induction names as [| opt names IH]; intros cfg; [reflexivity |].
  cbn [decode_arg].
  destruct (plain_not_option a ("no-" ++ opt) Ha) as [E1 _].
  destruct (plain_not_option a opt Ha) as [E2 _].
  destruct (plain_not_option a (opt ++ "=") Ha) as [_ E3].
  change ("--no-" ++ opt)%string with ("--" ++ ("no-" ++ opt))%string.
  rewrite E1, E2.
  replace (("--" ++ opt) ++ "=")%string with ("--" ++ (opt ++ "="))%string
    by reflexivity.
  rewrite E3. apply IH.
Qed.

(** X2.  Tokens that do not begin with two hyphens and are not a request
    for help are kept word for word, in the order given, after the
    tokens already kept; no option is set. *)
Theorem plain_tokens_kept (P : Platform) (args : list string) :
  forall cfg,
    forallb (fun a => negb (Str.startswith "--" a) && negb (is_help a)) args
    = true ->
    decode_argv P args cfg
    = Ok {| cmd_opts := cmd_opts cfg;
            extra_opts := extra_opts cfg ++ args;
            config_opts := config_opts cfg |}.
Proof.
  induction args as [| a args IH]; intros cfg H.
  - simpl. rewrite app_nil_r. now destruct cfg.
  - simpl in H. apply andb_true_iff in H. destruct H as [Ha H].
    apply andb_true_iff in Ha. destruct Ha as [Ha1 Ha2].
    apply negb_true_iff in Ha1, Ha2.
    cbn [decode_argv]. rewrite Ha2, (decode_arg_plain a Ha1).
    rewrite (IH _ H). unfold add_extra. simpl.
    now rewrite <- app_assoc.
Qed.

Lemma plain_tokens_kept_witness :
  forallb (fun a => negb (Str.startswith "--" a) && negb (is_help a))
    ["camera/simulator"; "-x"; "python"] = true
  /\ decode_argv linux ["camera/simulator"; "-x"; "python"] new_config
     = Ok {| cmd_opts := cmd_opts new_config;
             extra_opts := extra_opts new_config
                           ++ ["camera/simulator"; "-x"; "python"];
             config_opts := config_opts new_config |}.
Proof.
  split; [reflexivity |].
  apply (plain_tokens_kept linux ["camera/simulator"; "-x"; "python"]
           new_config).
  reflexivity.
Defined.

Lemma decode_argv_help (P : Platform) (argv : list string) :
  existsb is_help argv = true ->
  forall cfg, decode_argv P argv cfg = Raise NameError.
Proof.
  induction argv as [| a argv IH]; intros H cfg; [discriminate |].
  cbn [decode_argv existsb] in *.
  destruct (is_help a); [reflexivity |]. apply IH. exact H.
Qed.

(** X3.  A request for help anywhere on the command line ends the run
    with [NameError], before any directory is entered or any command is
    run: [decode_args] calls [print_help] as a bare name, which only the
    class binds. *)
Theorem help_raises_name_error (P : Platform) (w : World) (h : Host)
  (fs : filesystem) (other : exn -> string) (depth : nat)
  (argv : list string) (st : proc) :
  existsb is_help argv = true ->
  main P w h fs other depth argv st = (Raise NameError, st).
Proof.
  intros H. unfold main, make_config, decode_args.
  now rewrite (decode_argv_help P argv H).
Qed.

Lemma help_raises_name_error_witness :
  existsb is_help ["--git"; "-h"] = true
  /\ main linux lima_world sample_host sample_fs exn_str 10 ["--git"; "-h"]
       start
     = (Raise NameError, start).
Proof.
  split; [reflexivity |].
  apply (help_raises_name_error linux lima_world sample_host sample_fs
           exn_str 10 ["--git"; "-h"] start).
  reflexivity.
Defined.

Lemma dict_set_keys (d : dict) (x : string) (v : pyval) :
  List.map fst (dict_set d x v)
  = if dict_mem d x then List.map fst d else List.map fst d ++ [x].
Proof.
  unfold dict_mem. induction d as [| [k' v'] d IH]; simpl; [reflexivity |].
  destruct (String.eqb k' x); simpl; [reflexivity |].
  rewrite IH. destruct (dict_get d x); reflexivity.
Qed.

Lemma dict_mem_In (d : dict) (x : string) :
  dict_mem d x = true <-> In x (List.map fst d).
Proof.
  unfold dict_mem. induction d as [| [k' v'] d IH]; simpl.
  - split; [discriminate | contradiction].
  - destruct (String.eqb_spec k' x) as [-> | Hne].
    + split; auto.
    + rewrite IH. split; [auto | intros [? | ?]; [contradiction | assumption]].
Qed.

Lemma dict_set_wf (d : dict) (x : string) (v : pyval) :
  dict_wf d -> dict_wf (dict_set d x v).
Proof.
  unfold dict_wf. intros H. rewrite dict_set_keys.
  destruct (dict_mem d x) eqn:E; [assumption |].
  apply NoDup_app; [assumption | repeat constructor; intros [] |].
  intros k Hk [<- | []]. apply dict_mem_In in Hk. congruence.
Qed.

Lemma set_cmd_known (P : Platform) (cfg : Config) (x : string) (v : pyval) :
  In x (List.map fst (defaults P)) ->
  known_options P cfg -> known_options P (set_cmd cfg x v).
Proof.
  intros Hx [Hwf Hk]. split; simpl.
  - now apply dict_set_wf.
  - intros k. rewrite dict_set_keys.
    destruct (dict_mem (cmd_opts cfg) x); [apply Hk |].
    intros Hi. apply in_app_or in Hi. destruct Hi as [Hi | [Hi | []]].
    + now apply Hk.
    + now subst k.
Qed.

Lemma decode_arg_known (P : Platform) (names : list string) :
  (forall o, In o names -> In o (List.map fst (defaults P))) ->
  forall arg cfg,
    known_options P cfg -> known_options P (decode_arg names arg cfg).
Proof.
  induction names as [| opt names IH]; intros Hn arg cfg H.
  - exact H.
  - cbn [decode_arg].
    assert (Ho : In opt (List.map fst (defaults P))) by (apply Hn; now left).
    repeat match goal with
           | |- context [if ?b then _ else _] => destruct b
           end;
      try (apply set_cmd_known; assumption);
      apply IH; auto; intros o Hi; apply Hn; now right.
Qed.

Lemma decode_argv_known (P : Platform) (argv : list string) :
  forall cfg cfg',
    known_options P cfg -> decode_argv P argv cfg = Ok cfg' ->
    known_options P cfg' /\ config_opts cfg' = config_opts cfg.
Proof.
  induction argv as [| a argv IH]; intros cfg cfg' H E; cbn [decode_argv] in E.
  - injection E as <-. auto.
  - destruct (is_help a); [discriminate |].
    apply IH in E.
    + destruct E as [E1 E2]. split; [assumption |]. rewrite E2.
      clear. generalize (List.map fst (defaults P)).
      intros names. revert a cfg.
      induction names as [| opt names IHn]; intros a cfg; [reflexivity |].
      cbn [decode_arg].
      repeat match goal with
             | |- context [if ?b then _ else _] => destruct b
             end; try reflexivity; apply IHn.
    + apply decode_arg_known; auto.
Qed.

Lemma absolutize_known (P : Platform) (cwd opt : string) (cfg cfg' : Config) :
  In opt (List.map fst (defaults P)) ->
  known_options P cfg -> absolutize P cwd opt cfg = Ok cfg' ->
  known_options P cfg' /\ config_opts cfg' = config_opts cfg.
Proof.
  intros Ho H E. unfold absolutize in E.
  destruct (get P cfg opt) as [p | e]; [| discriminate].
  cbv beta iota delta [bind] in E.
  destruct (truthy p); [| injection E as <-; auto].
  destruct p as [b | z | s]; try discriminate.
  destruct (negb (isabs s)); injection E as <-; auto.
  split; [now apply set_cmd_known | reflexivity].
Qed.

(** X4.  Decoding keeps the option store in order: when it completes,
    every command-line option is one of the default names and is held
    once, the configuration file has not been read, and the source
    prefix is set, to a true value whenever the working directory is not
    the empty string. *)
Theorem decode_args_known (P : Platform) (cwd : string) (argv : list string)
  (c0 cfg : Config) :
  known_options P c0 ->
  decode_args P cwd argv c0 = Ok cfg ->
  known_options P cfg
  /\ config_opts cfg = config_opts c0
  /\ exists sp, get P cfg "source-prefix" = Ok sp
                /\ (String.eqb cwd "" = false -> truthy sp = true).
Proof.
  intros H0 E. unfold decode_args in E.
  destruct (decode_argv P argv c0) as [c1 | e] eqn:E1; [| discriminate].
  cbv beta iota delta [bind] in E.
  destruct (decode_argv_known P argv c0 c1 H0 E1) as [H1 Hc1].
  unfold decode_paths in E.
  destruct (get P c1 "source-prefix") as [sp | e] eqn:Hsp; [| discriminate].
  cbv beta iota delta [bind] in E.
  set (c2 := if negb (truthy sp)
             then set_cmd c1 "source-prefix" (VStr cwd) else c1) in E.
  assert (H2 : known_options P c2 /\ config_opts c2 = config_opts c1).
  { unfold c2. destruct (negb (truthy sp)); [| auto].
    split; [| reflexivity]. apply set_cmd_known; [| assumption].
    destruct P as [[] ? ?]; simpl; tauto. }
  assert (Hsp2 : exists sp', get P c2 "source-prefix" = Ok sp'
                   /\ (String.eqb cwd "" = false -> truthy sp' = true)).
  { unfold c2. destruct (truthy sp) eqn:Ht; simpl.
    - exists sp. auto.
    - exists (VStr cwd). split; [apply get_set_cmd_same |].
      simpl. now intros ->. }
  destruct H2 as [H2 Hc2].
  destruct (absolutize P cwd "config-file" c2) as [c3 | e] eqn:E3;
    [| discriminate].
  cbv beta iota delta [bind] in E.
  pose proof (absolutize_spec P cwd "config-file" c2 c3 E3) as [S3 _].
  pose proof (absolutize_spec P cwd "build-prefix" c3 cfg E) as [S4 _].
  apply absolutize_known in E3; [| destruct P as [[] ? ?]; simpl; tauto | auto].
  destruct E3 as [H3 Hc3].
  apply absolutize_known in E; [| destruct P as [[] ? ?]; simpl; tauto | auto].
  destruct E as [H4 Hc4].
  split; [assumption |]. split; [congruence |].
  destruct Hsp2 as (sp' & Hg & Ht). exists sp'. split; [| assumption].
  rewrite S4, S3 by discriminate. exact Hg.
Qed.

Lemma new_config_known (P : Platform) : known_options P new_config.
Proof. split; simpl; [constructor | contradiction]. Qed.

Lemma decode_args_known_witness :
  known_options linux new_config
  /\ decode_args linux "/home/u/lima" ["--build-prefix=/tmp/b"] new_config
     = Ok decoded_cfg
  /\ known_options linux decoded_cfg
  /\ config_opts decoded_cfg = config_opts new_config
  /\ exists sp, get linux decoded_cfg "source-prefix" = Ok sp
                /\ (String.eqb "/home/u/lima" "" = false -> truthy sp = true).
Proof.
  split; [exact (new_config_known linux) |].
  split; [reflexivity |].
  apply (decode_args_known linux "/home/u/lima" ["--build-prefix=/tmp/b"]
           new_config decoded_cfg (new_config_known linux)).
  reflexivity.
Defined.

(** ** The option store *)

(** X5.  An option set on the command line is what [get] returns for its
    name, the last value set winning, and the other names read as
    before; with [check_defaults] off, [get] never fails. *)
Theorem set_cmd_then_get (P : Platform) (cfg : Config) (x y : string)
  (v v' : pyval) :
  get P (set_cmd cfg x v) y
  = (if String.eqb x y then Ok v else get P cfg y)
  /\ get P (set_cmd (set_cmd cfg x v') x v) x = Ok v
  /\ get_checked P cfg y true = get P cfg y
  /\ exists r, get_checked P cfg y false = Ok r.
Proof.
  split; [| split; [| split]].
  - destruct (String.eqb_spec x y) as [-> | Hne].
    + apply get_set_cmd_same.
    + now apply get_set_cmd_other.
  - apply get_set_cmd_same.
  - reflexivity.
  - unfold get_checked. destruct (dict_get (cmd_opts cfg) y); eauto.
Qed.

(** X6.  A bare token naming a path under [camera/] reads as the option
    [limacamera-] followed by the rest of the path, one under
    [third-party/] as [lima-enable-] followed by the rest, and any other
    token as itself; the two rewritings never chain. *)
Theorem family_name_rules (arg : string) :
  family_name arg
  = if Str.startswith "camera/" arg
    then ("limacamera-" ++ Str.drop 7 arg)%string
    else if Str.startswith "third-party/" arg
         then ("lima-enable-" ++ Str.drop 12 arg)%string
         else arg.
Proof.
  unfold family_name. cbn [fold_left].
  change (String.length ("camera" ++ "/")) with 7.
  change (String.length ("third-party" ++ "/")) with 12.
  change ("camera" ++ "/")%string with "camera/".
  change ("third-party" ++ "/")%string with "third-party/".
  destruct (Str.startswith "camera/" arg); reflexivity.
Qed.

Lemma dict_get_update (e : dict) :
  dict_wf e ->
  forall (d : dict) (k : string),
    dict_get (dict_update d e) k
    = match dict_get e k with
      | Some v => Some v
      | None => dict_get d k
      end.
Proof.
  unfold dict_update, dict_wf.
  induction e as [| [k' v'] e IH]; intros Hwf d k; simpl; [reflexivity |].
  inversion Hwf as [| ? ? Hk' He]; subst.
  rewrite (IH He).
  destruct (String.eqb_spec k' k) as [-> | Hne].
  - destruct (dict_get e k) eqn:E.
    + exfalso. apply Hk'. apply dict_mem_In. unfold dict_mem. now rewrite E.
    + apply dict_get_set_same.
  - destruct (dict_get e k); [reflexivity |].
    now apply dict_get_set_other.
Qed.

Lemma defaults_wf (P : Platform) : dict_wf (defaults P).
Proof.
  unfold dict_wf. simpl.
  repeat (constructor; [simpl; intuition discriminate |]). constructor.
Qed.

(** X7.  In the merged view of [get_cmd_options] a name given as a bare
    token reads [True]; otherwise it reads as set on the command line;
    otherwise, when the defaults are asked for, as in the defaults; and
    otherwise it is absent. *)
Theorem cmd_options_view (P : Platform) (cfg : Config)
  (check_defaults : bool) (k : string) :
  dict_wf (cmd_opts cfg) ->
  dict_get (get_cmd_options P cfg check_defaults) k
  = if mem k (List.map family_name (extra_opts cfg)) then Some (VBool true)
    else match dict_get (cmd_opts cfg) k with
         | Some v => Some v
         | None => if check_defaults then dict_get (defaults P) k else None
         end.
Proof.
  intros Hwf. unfold get_cmd_options.
  rewrite dict_get_flags, (dict_get_update _ Hwf).
  destruct (mem k (List.map family_name (extra_opts cfg))); [reflexivity |].
  destruct (dict_get (cmd_opts cfg) k); [reflexivity |].
  destruct check_defaults; [| reflexivity].
  unfold dict_of_list. rewrite (dict_get_update _ (defaults_wf P)).
  now destruct (dict_get (defaults P) k).
Qed.

Lemma cmd_options_view_witness :
  dict_wf (cmd_opts no_install_cfg)
  /\ dict_get (get_cmd_options linux no_install_cfg true) "build-type"
     = if mem "build-type"
            (List.map family_name (extra_opts no_install_cfg))
       then Some (VBool true)
       else match dict_get (cmd_opts no_install_cfg) "build-type" with
            | Some v => Some v
            | None => if true then dict_get (defaults linux) "build-type"
                      else None
            end.
Proof.
  split; [exact no_install_cfg_wf |].
  apply (cmd_options_view linux no_install_cfg true "build-type"
           no_install_cfg_wf).
Defined.

(** ** What the reader of the configuration file leaves *)

Lemma str_map_map (f g : ascii -> ascii) (s : string) :
  Str.map f (Str.map g s) = Str.map (fun c => f (g c)) s.
Proof. induction s as [| c s IH]; simpl; [reflexivity | now rewrite IH]. Qed.

Lemma contains_map (f : ascii -> ascii) (c : ascii) (s : string) :
  (forall x, Ascii.eqb (f x) c = false) ->
  Str.contains c (Str.map f s) = false.
Proof.
  intros H. induction s as [| x s IH]; simpl; [reflexivity |].
  now rewrite H, IH.
Qed.

Lemma all_map (f : ascii -> ascii) (p : ascii -> bool) (s : string) :
  (forall x, p (f x) = true) -> Str.all p (Str.map f s) = true.
Proof.
  intros H. induction s as [| x s IH]; simpl; [reflexivity |].
  now rewrite H, IH.
Qed.

Lemma key_char_no_underscore (x : ascii) :
  Ascii.eqb (Str.lower_ascii (if Ascii.eqb x "_" then "-" else x)) "_"
  = false.
Proof. destruct x as [[|] [|] [|] [|] [|] [|] [|] [|]]; reflexivity. Qed.

Lemma key_char_not_upper (x : ascii) :
  negb (is_upper (Str.lower_ascii (if Ascii.eqb x "_" then "-" else x)))
  = true.
Proof. destruct x as [[|] [|] [|] [|] [|] [|] [|] [|]]; reflexivity. Qed.

Lemma read_key_normal (opt : string) :
  normal_key (Str.lower (from_underscore opt)) = true.
Proof.
  unfold normal_key, Str.lower, from_underscore, Str.replace.
  rewrite str_map_map.
  rewrite contains_map by apply key_char_no_underscore.
  rewrite all_map by apply key_char_not_upper. reflexivity.
Qed.

Lemma int_acc_nonneg (s : string) :
  forall acc, (0 <= acc)%Z -> Str.all Str.is_digit s = true ->
              (0 <= Str.int_acc acc s)%Z.
Proof.
  induction s as [| c s IH]; intros acc Hacc H;
    cbn [Str.all Str.int_acc] in *; [assumption |].
  apply andb_true_iff in H. destruct H as [Hc H].
  apply IH; [| assumption].
  unfold Str.is_digit, Str.in_range in Hc.
  apply andb_true_iff in Hc. destruct Hc as [Hlo _].
  apply N.leb_le in Hlo. lia.
Qed.

Lemma read_value_normal (val : string) :
  file_value (if Str.isdigit val then VInt (Str.to_int val) else VStr val)
  = true.
Proof.
  destruct (Str.isdigit val) eqn:E; simpl; [| now rewrite E].
  apply Z.leb_le. apply int_acc_nonneg; [lia |].
  destruct val; [discriminate | exact E].
Qed.

Lemma read_line_normal (line : string) (e : string * pyval) :
  read_line line = Ok (Some e) -> normal_entry e = true.
Proof.
  unfold read_line.
  destruct (String.eqb (Str.strip line) "" || _)%bool; [discriminate |].
  destruct (Str.split "=" (Str.strip line)) as [| opt [| val [| x l]]];
    try discriminate.
  intros H. injection H as <-. unfold normal_entry. simpl.
  now rewrite read_key_normal, read_value_normal.
Qed.

Lemma read_lines_normal (lines : list string) :
  forall acc,
    forallb normal_entry acc = true ->
    forallb normal_entry (snd (read_lines lines acc)) = true.
Proof.
  induction lines as [| line lines IH]; intros acc H; simpl; [assumption |].
  destruct (read_line line) as [[e |] | err] eqn:E; simpl; auto.
  apply IH. rewrite forallb_app, H. simpl.
  now rewrite (read_line_normal _ _ E).
Qed.

(** X8.  Whatever the file holds, and whether reading ends well or not,
    every entry the reader leaves has a name without underscore and
    without upper-case letter, and a value that is either an integer
    that is not negative or a text that is not all digits; no value is a
    boolean. *)
Theorem read_entries_normal (lines : list string) :
  forallb normal_entry (snd (read_lines lines [])) = true.
Proof. now apply read_lines_normal. Qed.

Lemma flag_char_round_trip (x : ascii) :
  (negb (is_lower x) && negb (Ascii.eqb x "-"))%bool = true ->
  Str.upper_ascii
    ((fun c => if Ascii.eqb c "-" then "_"%char else c)
       (Str.lower_ascii (if Ascii.eqb x "_" then "-"%char else x)))
  = x.
Proof.
  destruct x as [[|] [|] [|] [|] [|] [|] [|] [|]];
    intros H; try reflexivity; discriminate H.
Qed.

(** X9.  A key written in the configuration file without lower-case
    letter and without hyphen comes back unchanged as the name of its
    flag: the reader turns it into an option name, and [cmd_option]
    turns the option name into the key again. *)
Theorem flag_name_is_file_key (k : string) (v : pyval) :
  plain_key k = true ->
  Str.upper (to_underscore (Str.lower (from_underscore k))) = k
  /\ cmd_option (Str.lower (from_underscore k), v)
     = ("-D" ++ k ++ "=" ++ quoted v)%string.
Proof.
  intros H.
  assert (E : Str.upper (to_underscore (Str.lower (from_underscore k))) = k).
  { unfold Str.upper, to_underscore, Str.lower, from_underscore, Str.replace.
    rewrite !str_map_map. unfold plain_key in H.
    induction k as [| x k IH]; simpl in *; [reflexivity |].
    apply andb_true_iff in H. destruct H as [Hx H].
    rewrite (IH H). f_equal. now apply flag_char_round_trip. }
  split; [exact E |]. unfold cmd_option. now rewrite E.
Qed.

Lemma flag_name_is_file_key_witness :
  plain_key "LIMA_ENABLE_PYTHON" = true
  /\ Str.upper (to_underscore (Str.lower (from_underscore "LIMA_ENABLE_PYTHON")))
     = "LIMA_ENABLE_PYTHON"
  /\ cmd_option (Str.lower (from_underscore "LIMA_ENABLE_PYTHON"), VInt 1)
     = ("-D" ++ "LIMA_ENABLE_PYTHON" ++ "=" ++ quoted (VInt 1))%string.
Proof.
  split; [reflexivity |].
  apply (flag_name_is_file_key "LIMA_ENABLE_PYTHON" (VInt 1)).
  reflexivity.
Defined.

Lemma read_lines_app (l1 l2 : list string) :
  forall acc,
    read_lines (l1 ++ l2) acc
    = match read_lines l1 acc with
      | (Ok _, acc') => read_lines l2 acc'
      | (Raise e, acc') => (Raise e, acc')
      end.
Proof.
  induction l1 as [| line l1 IH]; intros acc; simpl; [reflexivity |].
  destruct (read_line line) as [[e |] | err]; auto.
Qed.

(** X10.  A line that does not parse stops the reading with
    [ValueError], and the object keeps the entries of the lines before
    it: asked again, it answers with these entries and does not read the
    file, whatever the file has become. *)
Theorem failed_read_is_kept (P : Platform) (fs : filesystem) (cfg : Config)
  (config_file : pyval) (good rest : list string) (bad : string) :
  config_opts cfg = None ->
  get P cfg "config-file" = Ok config_file ->
  fs config_file = Ok (good ++ bad :: rest) ->
  forallb one_separator (kept good) = true ->
  skipped bad = false ->
  one_separator bad = false ->
  exists es,
    Forall2 entry_of (kept good) es
    /\ get_config_options P fs cfg
       = (Raise ValueError, with_config_opts cfg es)
    /\ forall fs2, get_config_options P fs2 (with_config_opts cfg es)
                   = (Ok es, with_config_opts cfg es).
Proof.
  intros Hnone Hget Hfs Hgood Hs Hbad.
  destruct (read_lines_ok good [] Hgood) as (es & Hr & Hes).
  exists es. split; [exact Hes |]. split; [| reflexivity].
  unfold get_config_options, read_config.
  rewrite Hnone, Hget, Hfs, read_lines_app, Hr. simpl.
  apply Nat.eqb_neq in Hbad. now rewrite (read_line_fails _ Hs Hbad).
Qed.

Lemma failed_read_is_kept_witness :
  config_opts sample_cfg = None
  /\ get linux sample_cfg "config-file"
     = Ok (VStr "/home/u/lima/scripts/config.txt")
  /\ (fun _ => Ok broken_file) (VStr "/home/u/lima/scripts/config.txt")
     = Ok (firstn 2 broken_file ++ nth 2 broken_file "" :: skipn 3 broken_file)
  /\ exists es,
      Forall2 entry_of (kept (firstn 2 broken_file)) es
      /\ get_config_options linux (fun _ => Ok broken_file) sample_cfg
         = (Raise ValueError, with_config_opts sample_cfg es)
      /\ forall fs2, get_config_options linux fs2 (with_config_opts sample_cfg es)
                     = (Ok es, with_config_opts sample_cfg es).
Proof.
  split; [reflexivity |]. split; [reflexivity |]. split; [reflexivity |].
  apply (failed_read_is_kept linux (fun _ => Ok broken_file) sample_cfg
           (VStr "/home/u/lima/scripts/config.txt")
           (firstn 2 broken_file) (skipn 3 broken_file)
           (nth 2 broken_file "")); reflexivity.
Defined.

(** ** Resolving the options *)

(** X11.  The value a configuration entry ends with is either its own,
    and then no command-line option matches its name, or the value of
    the first command-line option, in iteration order, whose name is the
    entry name or ends it after a hyphen. *)
Theorem override_result (opt : string) (val : pyval) (items : dict)
  (v : pyval) :
  override opt val items = Ok v ->
  (v = val
   /\ forall c v', In (c, v') items -> overrides c opt = Ok false)
  \/ exists before c after,
       items = before ++ (c, v) :: after
       /\ (forall c' v', In (c', v') before -> overrides c' opt = Ok false)
       /\ (c = opt \/ suffix_match c opt).
Proof.
  induction items as [| [c cv] items IH]; cbn [override]; intros H.
  - injection H as <-. left. split; [reflexivity |]. intros ? ? [].
  - destruct (overrides c opt) as [[|] | e] eqn:E;
      cbv beta iota delta [bind] in H; [| | discriminate].
    + injection H as <-. right. exists [], c, items.
      split; [reflexivity |]. split; [intros ? ? [] |].
      now apply overrides_true_iff.
    + destruct (IH H) as [[-> Hall] | (before & c0 & after & -> & Hb & Hm)].
      * left. split; [reflexivity |].
        intros c' v' [Heq | Hi]; [injection Heq as <- _; exact E | eauto].
      * right. exists ((c, cv) :: before), c0, after.
        split; [reflexivity |]. split; [| exact Hm].
        intros c' v' [Heq | Hi]; [injection Heq as <- _; exact E | eauto].
Qed.

Lemma override_result_witness :
  override "lima-enable-python" (VInt 0)
    [("build-type", VStr "Debug"); ("python", VBool true)]
  = Ok (VBool true)
  /\ ((VBool true = VInt 0
       /\ forall c v',
            In (c, v') [("build-type", VStr "Debug"); ("python", VBool true)] ->
            overrides c "lima-enable-python" = Ok false)
      \/ exists before c after,
           [("build-type", VStr "Debug"); ("python", VBool true)]
           = before ++ (c, VBool true) :: after
           /\ (forall c' v', In (c', v') before ->
                             overrides c' "lima-enable-python" = Ok false)
           /\ (c = "lima-enable-python"
               \/ suffix_match c "lima-enable-python")).
Proof.
  split; [reflexivity |].
  apply (override_result "lima-enable-python" (VInt 0)
           [("build-type", VStr "Debug"); ("python", VBool true)]
           (VBool true)).
  reflexivity.
Defined.

Lemma find_zero (sub s : string) :
  Str.find sub s = Some 0 <-> Str.startswith sub s = true.
Proof.
  destruct s as [| c s]; simpl.
  - destruct (Str.startswith sub ""); split; congruence.
  - destruct (Str.startswith sub (String c s)); [tauto |].
    destruct (Str.find sub s); simpl; split; congruence.
Qed.

Lemma take_nil (i : nat) (s : string) :
  Str.take i s = "" -> i = 0 \/ s = "".
Proof. destruct i, s; simpl; auto; discriminate. Qed.

Lemma last_none (s : string) : Str.last s = None -> s = "".
Proof.
  induction s as [| c s IH]; [reflexivity |]. simpl.
  destruct s; [discriminate |]. intros H. apply IH in H. discriminate.
Qed.

(** X12.  The test of one command-line name against an entry name fails
    in two cases only: with [ValueError] when the command-line name is
    the empty string and the entry name is not, and with [IndexError]
    when the command-line name is not the entry name but begins it and
    occurs nowhere after in it. *)
Theorem overrides_raises (cmd opt : string) (e : exn) :
  overrides cmd opt = Raise e
  <-> (e = ValueError /\ cmd = "" /\ opt <> "")
      \/ (e = IndexError /\ cmd <> "" /\ cmd <> opt
          /\ Str.startswith cmd opt = true
          /\ Str.find cmd (Str.drop (String.length cmd) opt) = None).
Proof.
  unfold overrides. split.
  - destruct (String.eqb_spec cmd opt) as [-> | Hne]; [discriminate |].
    destruct (String.eqb_spec cmd "") as [-> | Hcmd].
    + intros H. injection H as <-. left. auto.
    + destruct (Str.split cmd opt) as [| t0 [| t1 [| t2 l]]] eqn:Hs;
        try discriminate.
      destruct (Str.last t0) eqn:Hl; [discriminate |].
      intros H. injection H as <-. right.
      apply last_none in Hl. subst t0.
      destruct (Str.find cmd opt) as [i |] eqn:Hf.
      * rewrite (split_some _ _ _ Hcmd Hf) in Hs. injection Hs as Ht Hrest.
        apply split_singleton in Hrest; [| assumption].
        destruct Hrest as [_ Hnone].
        destruct (find_some _ _ _ Hf) as [_ Hlen].
        assert (i = 0).
        { destruct (take_nil _ _ Ht) as [-> | ->]; [reflexivity |].
          simpl in Hlen. lia. }
        subst i. apply find_zero in Hf. auto.
      * rewrite (split_none _ _ Hf) in Hs. discriminate.
  - intros [(-> & -> & Hopt) | (-> & Hcmd & Hne & Hst & Hnone)].
    + destruct (String.eqb_spec "" opt); [congruence | reflexivity].
    + destruct (String.eqb_spec cmd opt); [contradiction |].
      destruct (String.eqb_spec cmd ""); [contradiction |].
      apply find_zero in Hst.
      rewrite (split_some _ _ _ Hcmd Hst).
      change (0 + String.length cmd) with (String.length cmd).
      rewrite (split_none _ _ Hnone). reflexivity.
Qed.

Lemma config_pass_steps (cmd : dict) (l : list (string * pyval)) :
  forall acc out,
    config_pass cmd l acc = Ok out
    <-> exists vs,
         Forall2 (fun e v => override (fst e) (snd e) cmd = Ok v) l vs
         /\ out = acc ++ filter (fun e => spec_active (snd e))
                           (combine (List.map fst l) vs).
Proof.
  induction l as [| [opt val] l IH]; intros acc out; cbn [config_pass].
  - split.
    + intros H. injection H as <-. exists []. split; [constructor |].
      simpl. now rewrite app_nil_r.
    + intros (vs & Hf & ->). inversion Hf. simpl. now rewrite app_nil_r.
  - split.
    + intros H.
      destruct (override opt val cmd) as [v |] eqn:Hv;
        cbv beta iota delta [bind] in H; [| discriminate].
      apply IH in H. destruct H as (vs & Hf & ->).
      exists (v :: vs). split; [now constructor |].
      rewrite is_active_spec. simpl.
      destruct (spec_active v); [now rewrite <- app_assoc | reflexivity].
    + intros (vs & Hf & ->). inversion Hf as [| ? v ? vs' Hv Hf']; subst.
      simpl in Hv. rewrite Hv. cbv beta iota delta [bind].
      apply IH. exists vs'. split; [assumption |].
      rewrite is_active_spec. simpl.
      destruct (spec_active v); [now rewrite <- app_assoc | reflexivity].
Qed.

(** X13.  The pass over the configuration entries ends well exactly when
    the command-line test fails on none of them, and it then gives the
    entries with their overridden values, the inactive ones left out, in
    the order of the file. *)
Theorem config_pass_in_order (cmd : dict) (l out : list (string * pyval)) :
  config_pass cmd l [] = Ok out
  <-> exists vs,
       Forall2 (fun e v => override (fst e) (snd e) cmd = Ok v) l vs
       /\ out = filter (fun e => spec_active (snd e))
                  (combine (List.map fst l) vs).
Proof. apply (config_pass_steps cmd l [] out). Qed.

Lemma dict_update_keys (e : dict) :
  forall (d : dict) (k : string),
    In k (List.map fst (dict_update d e))
    <-> In k (List.map fst d) \/ In k (List.map fst e).
Proof.
  unfold dict_update.
  induction e as [| [k' v'] e IH]; intros d k; simpl; [tauto |].
  rewrite IH, dict_set_keys.
  destruct (dict_mem d k') eqn:E.
  - apply dict_mem_In in E. split; [tauto |].
    intros [H | [<- | H]]; auto.
  - rewrite in_app_iff. simpl. tauto.
Qed.

Lemma dict_of_list_mem (l : list (string * pyval)) (k : string) :
  dict_mem (dict_of_list l) k = true <-> In k (List.map fst l).
Proof.
  rewrite dict_mem_In. unfold dict_of_list. rewrite dict_update_keys.
  simpl. tauto.
Qed.

Lemma cmake_pass_table (P : Platform) (cfg : Config)
  (table : list (string * string)) :
  forall acc out,
    cmake_pass P cfg table acc = Ok out ->
    exists added,
      out = acc ++ added
      /\ NoDup (List.map fst added)
      /\ (forall k v, In (k, v) added ->
            ~ In k (List.map fst acc)
            /\ exists ck, In (ck, k) table /\ get P cfg ck = Ok v
                          /\ spec_active v = true)
      /\ (forall ck k v, In (ck, k) table -> get P cfg ck = Ok v ->
                         spec_active v = true -> In k (List.map fst out)).
Proof.
  induction table as [| [cmd_key cmake_key] table IH]; intros acc out H;
    cbn [cmake_pass] in H.
  - injection H as <-. exists []. rewrite app_nil_r.
    split; [reflexivity |]. split; [constructor |].
    split; [intros ? ? [] | intros ? ? ? []].
  - destruct (get P cfg cmd_key) as [v0 | e] eqn:Hg;
      cbv beta iota delta [bind] in H; [| discriminate].
    rewrite is_active_spec in H.
    destruct (spec_active v0) eqn:Hv0;
      [destruct (dict_mem (dict_of_list acc) cmake_key) eqn:Hm |];
      cbn [andb negb] in H;
      apply IH in H; destruct H as (added & -> & Hnd & Hfrom & Hall).
    + apply dict_of_list_mem in Hm.
      exists added. split; [reflexivity |]. split; [assumption |]. split.
      * intros k v Hi. destruct (Hfrom k v Hi) as (Hn & ck & Hck & Hrest).
        split; [assumption |]. exists ck. split; [now right | assumption].
      * intros ck k v [Heq | Hi] Hget Hact; [| eauto].
        injection Heq as <- <-. rewrite map_app, in_app_iff. now left.
    + assert (Hnot : ~ In cmake_key (List.map fst acc)).
      { intros Hi. apply dict_of_list_mem in Hi. congruence. }
      exists ((cmake_key, v0) :: added).
      rewrite <- app_assoc. split; [reflexivity |]. split; [| split].
      * simpl. constructor; [| assumption].
        intros Hi. apply in_map_iff in Hi. destruct Hi as ([k v] & Hk & Hi).
        simpl in Hk. subst k. destruct (Hfrom _ _ Hi) as [Hn _].
        apply Hn. rewrite map_app, in_app_iff. right. now left.
      * intros k v [Heq | Hi].
        -- injection Heq as <- <-. split; [assumption |].
           exists cmd_key. split; [now left | auto].
        -- destruct (Hfrom k v Hi) as (Hn & ck & Hck & Hrest).
           split; [| exists ck; split; [now right | assumption]].
           intros Hi'. apply Hn. rewrite map_app, in_app_iff. now left.
      * intros ck k v [Heq | Hi] Hget Hact.
        -- injection Heq as <- <-. rewrite <- app_assoc in *.
           rewrite map_app, in_app_iff. right. now left.
        -- rewrite <- app_assoc in Hall. eauto.
    + exists added. split; [reflexivity |]. split; [assumption |]. split.
      * intros k v Hi. destruct (Hfrom k v Hi) as (Hn & ck & Hck & Hrest).
        split; [assumption |]. exists ck. split; [now right | assumption].
      * intros ck k v [Heq | Hi] Hget Hact; [| eauto].
        injection Heq as <- <-. congruence.
Qed.

(** X14.  After the entries of the file, the fixed table adds each of
    its cmake names at most once, only for a command-line or default
    value that is active, and never a name the file pass has emitted;
    and every cmake name of the table whose option is active is in the
    result, from the one pass or the other. *)
Theorem fixed_table_once (P : Platform) (cfg : Config)
  (config_opts out : list (string * pyval)) :
  resolve_options P cfg config_opts = Ok out ->
  exists from_file from_table,
    config_pass (get_cmd_options P cfg false) config_opts [] = Ok from_file
    /\ out = from_file ++ from_table
    /\ NoDup (List.map fst from_table)
    /\ (forall k v, In (k, v) from_table ->
          ~ In k (List.map fst from_file)
          /\ exists ck, In (ck, k) cmd_2_cmake_map /\ get P cfg ck = Ok v
                        /\ spec_active v = true)
    /\ (forall ck k v, In (ck, k) cmd_2_cmake_map -> get P cfg ck = Ok v ->
                       spec_active v = true -> In k (List.map fst out)).
Proof.
  unfold resolve_options. intros H.
  destruct (config_pass (get_cmd_options P cfg false) config_opts [])
    as [from_file | e]; cbv beta iota delta [bind] in H; [| discriminate].
  apply cmake_pass_table in H. destruct H as (added & -> & H).
  exists from_file, added. auto.
Qed.

Lemma fixed_table_once_witness :
  resolve_options linux sample_cfg sample_entries = Ok sample_resolved
  /\ exists from_file from_table,
      config_pass (get_cmd_options linux sample_cfg false) sample_entries []
      = Ok from_file
      /\ sample_resolved = from_file ++ from_table
      /\ NoDup (List.map fst from_table)
      /\ (forall k v, In (k, v) from_table ->
            ~ In k (List.map fst from_file)
            /\ exists ck, In (ck, k) cmd_2_cmake_map
                          /\ get linux sample_cfg ck = Ok v
                          /\ spec_active v = true)
      /\ (forall ck k v, In (ck, k) cmd_2_cmake_map ->
                         get linux sample_cfg ck = Ok v ->
                         spec_active v = true ->
                         In k (List.map fst sample_resolved)).
Proof.
  split; [reflexivity |].
  apply (fixed_table_once linux sample_cfg sample_entries sample_resolved).
  reflexivity.
Defined.

(** ** The flag tokens *)

Lemma flag_name_char (x : ascii) :
  (negb (Ascii.eqb (Str.upper_ascii (if Ascii.eqb x "-" then "_"%char else x))
           "-")
   && negb (is_lower
              (Str.upper_ascii (if Ascii.eqb x "-" then "_"%char else x))))%bool
  = true.
Proof. destruct x as [[|] [|] [|] [|] [|] [|] [|] [|]]; reflexivity. Qed.

Lemma flag_name_clean (o : string) :
  Str.all (fun c => negb (Ascii.eqb c "-") && negb (is_lower c))%bool
    (Str.upper (to_underscore o)) = true.
Proof.
  unfold Str.upper, to_underscore, Str.replace. rewrite str_map_map.
  apply all_map. intros x. apply flag_name_char.
Qed.

Lemma quoted_guarded (v : pyval) :
  (negb (Str.contains " " (quoted v)) || Str.startswith dquote (quoted v))%bool
  = true.
Proof.
  rewrite quoted_spec. destruct v as [[|] | z | s]; try reflexivity.
  - cbn [spec_flag_value]. now rewrite of_int_no_space.
  - cbn [spec_flag_value]. destruct (Str.contains " " s) eqn:Hs.
    + destruct (Str.startswith dquote s) eqn:Hq.
      * rewrite Hq. apply orb_true_r.
      * rewrite (startswith_app dquote). apply orb_true_r.
    + now rewrite Hs.
Qed.

(** X15.  In every flag token the name between [-D] and [=] holds no
    hyphen and no lower-case letter, and the value after [=], when it
    holds a space, begins with a double quote. *)
Theorem flag_token_form (o : string) (v : pyval) :
  cmd_option (o, v)
  = ("-D" ++ Str.upper (to_underscore o) ++ "=" ++ quoted v)%string
  /\ Str.all (fun c => negb (Ascii.eqb c "-") && negb (is_lower c))%bool
       (Str.upper (to_underscore o)) = true
  /\ (negb (Str.contains " " (quoted v))
      || Str.startswith dquote (quoted v))%bool = true.
Proof.
  split; [reflexivity |]. split; [apply flag_name_clean | apply quoted_guarded].
Qed.

(** ** Locating and updating the modules *)

(** X16.  A requested name of the exclusion list is never located,
    whatever directories exist: the run is the one without the name, so
    no command is issued for it. *)
Theorem excluded_module_skipped (P : Platform) (w : World) (depth : nat)
  (cfg : Config) (l1 l2 : list string) (n : string) (st : proc) :
  mem n not_submodules = true ->
  check_submodules P w depth cfg (Some (l1 ++ n :: l2)) st
  = check_submodules P w depth cfg (Some (l1 ++ l2)) st.
Proof.
  intros Hn. unfold check_submodules, iobind, lift.
  destruct (get P cfg "source-prefix") as [root | e]; [| reflexivity].
  unfold ch_dir, iobind, getcwd.
  destruct (os_chdir w root st) as [[[] | e] st1]; [| reflexivity].
  rewrite (locate_all_without w st1 l1 l2 n); [reflexivity |].
  unfold locate. now rewrite Hn.
Qed.

Lemma excluded_module_skipped_witness :
  mem "python" not_submodules = true
  /\ check_submodules linux lima_world 10 git_cfg
       (Some (["simulator"] ++ "python" :: [])) start
     = check_submodules linux lima_world 10 git_cfg
         (Some (["simulator"] ++ [])) start.
Proof.
  split; [reflexivity |].
  apply (excluded_module_skipped linux lima_world 10 git_cfg
           ["simulator"] [] "python" start).
  reflexivity.
Defined.

(** X17.  A located path is an existing directory, its name is not of
    the exclusion list, and it is the renamed name under [third-party]
    when that is a directory, else under [camera] when that is one, else
    the renamed name itself. *)
Theorem located_is_directory (w : World) (st : proc) (n p : string) :
  locate w st n = Some p ->
  mem n not_submodules = false
  /\ isdir w st p = true
  /\ p = (if isdir w st (path_join "third-party" (renamed n))
          then path_join "third-party" (renamed n)
          else if isdir w st (path_join "camera" (renamed n))
               then path_join "camera" (renamed n)
               else renamed n).
Proof.
  unfold locate. fold (renamed n).
  destruct (mem n not_submodules); [discriminate |].
  cbn [search_dirs].
  destruct (isdir w st (path_join "third-party" (renamed n))) eqn:E1.
  - rewrite E1. intros H. injection H as <-. auto.
  - destruct (isdir w st (path_join "camera" (renamed n))) eqn:E2.
    + rewrite E2. intros H. injection H as <-. auto.
    + destruct (isdir w st (renamed n)) eqn:E3; [| discriminate].
      intros H. injection H as <-. auto.
Qed.

Lemma located_is_directory_witness :
  locate lima_world start "simulator" = Some "camera/simulator"
  /\ mem "simulator" not_submodules = false
  /\ isdir lima_world start "camera/simulator" = true
  /\ "camera/simulator"
     = (if isdir lima_world start (path_join "third-party" (renamed "simulator"))
        then path_join "third-party" (renamed "simulator")
        else if isdir lima_world start (path_join "camera" (renamed "simulator"))
             then path_join "camera" (renamed "simulator")
             else renamed "simulator").
Proof.
  split; [reflexivity |].
  apply (located_is_directory lima_world start "simulator" "camera/simulator").
  reflexivity.
Defined.








Section ExitMessage.

Variable w : World.

(** Changing directory and listing the modules fail with an exception,
    never by leaving the interpreter. *)
Hypothesis chdir_no_exit :
  forall st d msg, chdir w st d <> Raise (SystemExit msg).

Hypothesis listing_no_exit :
  forall st msg, git_submodule w st <> Raise (SystemExit msg).






End ExitMessage.




(** X19.  When [git submodule init] of a module fails, nothing else is
    run: not the update of that module, and none of the modules after
    it in the list.  The run leaves the interpreter with a message that
    names the module and the command. *)
Theorem init_failure_stops (w : World) (depth : nat) (submod : string)
  (rest : list string) (st : proc) :
  Z.eqb (system w st ("git submodule init " ++ submod)) 0 = false ->
  for_each (submod :: rest) (update_submodule w (S depth)) st
  = (Raise (SystemExit ("Problem with submodule " ++ submod ++ ": "
                        ++ " [git submodule init " ++ submod ++ "]")),
     {| cwd := cwd st;
        log := log st ++ [(cwd st, ("git submodule init " ++ submod)%string)] |}).
Proof.
  intros H. cbn [for_each update_submodule].
  unfold iobind at 1. unfold try_except. unfold iobind at 1.
  unfold exec_cmd at 1.
  change ("git submodule " ++ "init " ++ submod)%string
    with ("git submodule init " ++ submod)%string.
  rewrite H. reflexivity.
Qed.

Lemma init_failure_stops_witness :
  Z.eqb (system offline_world start
           ("git submodule init " ++ "third-party/Processlib")) 0 = false
  /\ for_each ("third-party/Processlib" :: ["camera/simulator"])
       (update_submodule offline_world 10) start
     = (Raise (SystemExit ("Problem with submodule "
                           ++ "third-party/Processlib" ++ ": "
                           ++ " [git submodule init "
                           ++ "third-party/Processlib" ++ "]")),
        {| cwd := cwd start;
           log := log start
                  ++ [(cwd start,
                       ("git submodule init "
                        ++ "third-party/Processlib")%string)] |}).
Proof.
  split; [reflexivity |].
  apply (init_failure_stops offline_world 9 "third-party/Processlib"
           ["camera/simulator"] start).
  reflexivity.
Defined.

Lemma exec_cmd_ok (w : World) (cmd msg : string) (st : proc) :
  system w st cmd = 0%Z ->
  exec_cmd w cmd msg st
  = (Ok tt, {| cwd := cwd st; log := log st ++ [(cwd st, cmd)] |}).
Proof. intros H. unfold exec_cmd. now rewrite H. Qed.

Lemma exec_cmd_fails (w : World) (cmd msg : string) (st : proc) :
  Z.eqb (system w st cmd) 0 = false ->
  exec_cmd w cmd msg st
  = (Raise (Exception (msg ++ " [" ++ cmd ++ "]")),
     {| cwd := cwd st; log := log st ++ [(cwd st, cmd)] |}).
Proof. intros H. unfold exec_cmd. now rewrite H. Qed.

Lemma iobind_step {A B : Type} (m : io A) (k : A -> io B) (st st1 : proc)
  (a : A) :
  m st = (Ok a, st1) -> iobind m k st = k a st1.
Proof. intros H. unfold iobind. now rewrite H. Qed.

Lemma iobind_stop {A B : Type} (m : io A) (k : A -> io B) (st st1 : proc)
  (e : exn) :
  m st = (Raise e, st1) -> iobind m k st = (Raise e, st1).
Proof. intros H. unfold iobind. now rewrite H. Qed.

(** X20.  For a module without modules of its own, when every command
    succeeds: [update_submodule] runs [git submodule init] and then
    [git submodule update] on the module from the directory it is called
    in, then [git submodule init] inside the module, nothing else, and
    returns in the directory it was called in. *)
Theorem leaf_module_updated (w : World) (depth : nat) (submod d : string)
  (st : proc) :
  (forall s cmd, system w s cmd = 0%Z) ->
  (forall s, cwd s = cwd st -> chdir w s (VStr submod) = Ok d) ->
  (forall s, cwd s = d -> git_submodule w s = Ok []) ->
  (forall s, chdir w s (VStr (cwd st)) = Ok (cwd st)) ->
  update_submodule w (S depth) submod st
  = (Ok tt,
     {| cwd := cwd st;
        log := log st
               ++ [ (cwd st, ("git submodule init " ++ submod)%string);
                    (cwd st, ("git submodule update " ++ submod)%string);
                    (d, "git submodule init") ] |}).
Proof.
  intros Hsys Hin Hlist Hback.
  cbn [update_submodule]. unfold try_except.
  erewrite iobind_step by (apply exec_cmd_ok, Hsys).
  erewrite iobind_step by (apply exec_cmd_ok, Hsys).
  unfold ch_dir.
  erewrite iobind_step by (unfold getcwd; reflexivity).
  erewrite iobind_step
    by (unfold os_chdir; rewrite Hin by reflexivity; reflexivity).
  erewrite iobind_step.
  2:{ erewrite iobind_step by (apply exec_cmd_ok, Hsys).
      erewrite iobind_step
        by (unfold popen_git_submodule; rewrite Hlist by reflexivity;
            reflexivity).
      reflexivity. }
  unfold os_chdir. rewrite Hback. cbn [cwd log].
  rewrite <- !app_assoc. reflexivity.
Qed.

Lemma leaf_module_updated_witness :
  (forall s cmd, system lima_world s cmd = 0%Z)
  /\ (forall s, cwd s = cwd start ->
                chdir lima_world s (VStr "camera/simulator")
                = Ok "/home/u/lima/camera/simulator")
  /\ (forall s, cwd s = "/home/u/lima/camera/simulator" ->
                git_submodule lima_world s = Ok [])
  /\ (forall s, chdir lima_world s (VStr (cwd start)) = Ok (cwd start))
  /\ update_submodule lima_world 10 "camera/simulator" start
     = (Ok tt,
        {| cwd := cwd start;
           log := log start
                  ++ [ (cwd start,
                        ("git submodule init " ++ "camera/simulator")%string);
                       (cwd start,
                        ("git submodule update " ++ "camera/simulator")%string);
                       ("/home/u/lima/camera/simulator",
                        "git submodule init") ] |}).
Proof.
  assert (H1 : forall s cmd, system lima_world s cmd = 0%Z)
    by reflexivity.
  assert (H2 : forall s, cwd s = cwd start ->
                         chdir lima_world s (VStr "camera/simulator")
                         = Ok "/home/u/lima/camera/simulator").
  { intros s Hs. simpl. rewrite Hs. reflexivity. }
  assert (H3 : forall s, cwd s = "/home/u/lima/camera/simulator" ->
                         git_submodule lima_world s = Ok [])
    by reflexivity.
  assert (H4 : forall s, chdir lima_world s (VStr (cwd start))
                         = Ok (cwd start))
    by reflexivity.
  split; [exact H1 |]. split; [exact H2 |]. split; [exact H3 |].
  split; [exact H4 |].
  apply (leaf_module_updated lima_world 9 "camera/simulator"
           "/home/u/lima/camera/simulator" start H1 H2 H3 H4).
Defined.

(** ** Building and installing *)

Lemma run_cmake_all (P : Platform) (w : World) (h : Host) (cfg : Config)
  (line bline : string) (st : proc) :
  get_build_options P h cfg = Ok bline ->
  (forall s cmd, system w s cmd = 0%Z) ->
  run_cmake P w h cfg line st
  = (Ok tt,
     {| cwd := cwd st;
        log := log st ++ [(cwd st, line); (cwd st, bline)]
               ++ (if truthy (is_install_required P cfg)
                   then [(cwd st, get_install_options)] else []) |}).
Proof.
  intros Hb Hsys. unfold run_cmake.
  erewrite iobind_step by (apply exec_cmd_ok, Hsys).
  erewrite iobind_step by (unfold lift; rewrite Hb; reflexivity).
  erewrite iobind_step by (apply exec_cmd_ok, Hsys).
  destruct (truthy (is_install_required P cfg)); cbn [negb].
  - rewrite exec_cmd_ok by apply Hsys. cbn [cwd log].
    now rewrite <- !app_assoc.
  - unfold ret. cbn [cwd log]. now rewrite <- !app_assoc.
Qed.

(** X21.  When the command line decodes, the submodule step and the
    entry into the build directory end well and every command succeeds,
    [main] runs the configure command, then the build command, then the
    install command if and only if [is_install_required()] holds, all
    three in the build directory, and nothing else. *)
Theorem main_build_sequence (P : Platform) (w : World) (h : Host)
  (fs : filesystem) (other : exn -> string) (depth : nat)
  (argv : list string) (st st0 st1 : proc) (cfg cfg1 : Config)
  (build_prefix : pyval) (line bline : string) :
  make_config P (cwd st) argv = Ok cfg ->
  git_step P w depth cfg st = (Ok tt, st0) ->
  get P cfg "build-prefix" = Ok build_prefix ->
  enter_build_dir w h build_prefix st0 = (Ok tt, st1) ->
  get_configure_options P fs cfg = (Ok line, cfg1) ->
  get_build_options P h cfg1 = Ok bline ->
  (forall s cmd, system w s cmd = 0%Z) ->
  main P w h fs other depth argv st
  = (Ok tt,
     {| cwd := cwd st1;
        log := log st1 ++ [(cwd st1, line); (cwd st1, bline)]
               ++ (if truthy (is_install_required P cfg1)
                   then [(cwd st1, get_install_options)] else []) |}).
Proof.
  intros Hcfg Hgit Hbp Hdir Hline Hbline Hsys.
  unfold main, build_install_lima.
  rewrite Hcfg, Hgit, Hbp, Hdir, Hline.
  now rewrite (run_cmake_all P w h cfg1 line bline st1 Hbline Hsys).
Qed.

Lemma main_build_sequence_witness :
  make_config linux (cwd start) ["simulator"] = Ok simulator_cfg
  /\ git_step linux lima_world 10 simulator_cfg start = (Ok tt, start)
  /\ get linux simulator_cfg "build-prefix" = Ok (VStr "/home/u/lima/build")
  /\ enter_build_dir lima_world sample_host (VStr "/home/u/lima/build") start
     = (Ok tt, in_build_dir)
  /\ get_configure_options linux sample_fs simulator_cfg
     = (Ok simulator_line, with_config_opts simulator_cfg sample_entries)
  /\ get_build_options linux sample_host
       (with_config_opts simulator_cfg sample_entries)
     = Ok "cmake --build . -- -j 5"
  /\ (forall s cmd, system lima_world s cmd = 0%Z)
  /\ main linux lima_world sample_host sample_fs exn_str 10 ["simulator"] start
     = (Ok tt,
        {| cwd := cwd in_build_dir;
           log := log in_build_dir
                  ++ [ (cwd in_build_dir, simulator_line);
                       (cwd in_build_dir, "cmake --build . -- -j 5") ]
                  ++ (if truthy (is_install_required linux
                                   (with_config_opts simulator_cfg
                                      sample_entries))
                      then [(cwd in_build_dir, get_install_options)]
                      else []) |}).
Proof.
  assert (Hsys : forall s cmd, system lima_world s cmd = 0%Z) by reflexivity.
  repeat (split; [reflexivity |]).
  apply (main_build_sequence linux lima_world sample_host sample_fs exn_str
           10 ["simulator"] start start in_build_dir simulator_cfg
           (with_config_opts simulator_cfg sample_entries)
           (VStr "/home/u/lima/build") simulator_line
           "cmake --build . -- -j 5");
    try reflexivity; exact Hsys.
Defined.

(** X22.  When the configure command fails, neither the build nor the
    install command is run, and [main] leaves the interpreter with the
    message [Problem building/installing Lima:] followed by the hint on
    the configuration and the command that failed. *)
Theorem main_configure_failure (P : Platform) (w : World) (h : Host)
  (fs : filesystem) (other : exn -> string) (depth : nat)
  (argv : list string) (st st0 st1 : proc) (cfg cfg1 : Config)
  (build_prefix : pyval) (line : string) :
  make_config P (cwd st) argv = Ok cfg ->
  git_step P w depth cfg st = (Ok tt, st0) ->
  get P cfg "build-prefix" = Ok build_prefix ->
  enter_build_dir w h build_prefix st0 = (Ok tt, st1) ->
  get_configure_options P fs cfg = (Ok line, cfg1) ->
  Z.eqb (system w st1 line) 0 = false ->
  main P w h fs other depth argv st
  = (Raise (SystemExit ("Problem building/installing Lima: "
                        ++ configure_hint ++ " [" ++ line ++ "]")),
     {| cwd := cwd st1; log := log st1 ++ [(cwd st1, line)] |}).
Proof.
  intros Hcfg Hgit Hbp Hdir Hline Hfail.
  unfold main, build_install_lima.
  rewrite Hcfg, Hgit, Hbp, Hdir, Hline.
  unfold run_cmake.
  erewrite iobind_stop by (apply exec_cmd_fails, Hfail).
  reflexivity.
Qed.

Lemma main_configure_failure_witness :
  make_config linux (cwd start) ["simulator"] = Ok simulator_cfg
  /\ git_step linux no_cmake_world 10 simulator_cfg start = (Ok tt, start)
  /\ get linux simulator_cfg "build-prefix" = Ok (VStr "/home/u/lima/build")
  /\ enter_build_dir no_cmake_world sample_host (VStr "/home/u/lima/build")
       start
     = (Ok tt, in_build_dir)
  /\ get_configure_options linux sample_fs simulator_cfg
     = (Ok simulator_line, with_config_opts simulator_cfg sample_entries)
  /\ Z.eqb (system no_cmake_world in_build_dir simulator_line) 0 = false
  /\ main linux no_cmake_world sample_host sample_fs exn_str 10 ["simulator"]
       start
     = (Raise (SystemExit ("Problem building/installing Lima: "
                           ++ configure_hint ++ " [" ++ simulator_line ++ "]")),
        {| cwd := cwd in_build_dir;
           log := log in_build_dir ++ [(cwd in_build_dir, simulator_line)] |}).
Proof.
  repeat (split; [reflexivity |]).
  apply (main_configure_failure linux no_cmake_world sample_host sample_fs
           exn_str 10 ["simulator"] start start in_build_dir simulator_cfg
           (with_config_opts simulator_cfg sample_entries)
           (VStr "/home/u/lima/build") simulator_line);
    reflexivity.
Defined.

(** ** Edge cases of the option values *)

Lemma get_default_ok (P : Platform) (cfg : Config) (k : string) :
  In k (List.map fst (defaults P)) -> exists v, get P cfg k = Ok v.
Proof.
  intros H. unfold get. destruct (dict_get (cmd_opts cfg) k); [eauto |].
  destruct (dict_get (defaults P) k) eqn:E; [eauto |].
  exfalso. apply dict_mem_In in H. unfold dict_mem in H.
  rewrite E in H. discriminate.
Qed.

Lemma absolutize_type_error (P : Platform) (cwd opt : string)
  (cfg : Config) :
  get P cfg opt = Ok (VBool true) ->
  absolutize P cwd opt cfg = Raise TypeError.
Proof. intros H. unfold absolutize. now rewrite H. Qed.

Lemma absolutize_outcome (P : Platform) (cwd opt : string) (cfg : Config) :
  In opt (List.map fst (defaults P)) ->
  absolutize P cwd opt cfg = Raise TypeError
  \/ exists cfg', absolutize P cwd opt cfg = Ok cfg'.
Proof.
  intros H. destruct (get_default_ok P cfg opt H) as [v Hv].
  unfold absolutize. rewrite Hv. cbv beta iota delta [bind].
  destruct (truthy v); [| eauto].
  destruct v; auto. destruct (negb (isabs s)); eauto.
Qed.

(** X23.  A [--config-file] or [--build-prefix] given without a value
    holds [True], which is not a path: decoding then fails with
    [TypeError], whatever else the command line holds. *)
Theorem bare_path_option_fails (P : Platform) (cwd : string)
  (argv : list string) (c0 cfg : Config) :
  decode_argv P argv c0 = Ok cfg ->
  get P cfg "config-file" = Ok (VBool true)
  \/ get P cfg "build-prefix" = Ok (VBool true) ->
  decode_args P cwd argv c0 = Raise TypeError.
Proof.
  intros Hd Hb. unfold decode_args. rewrite Hd.
  cbv beta iota delta [bind]. unfold decode_paths.
  destruct (get_default_ok P cfg "source-prefix") as [sp Hsp];
    [destruct P as [[] ? ?]; simpl; tauto |].
  rewrite Hsp. cbv beta iota delta [bind].
  set (c1 := if negb (truthy sp)
             then set_cmd cfg "source-prefix" (VStr cwd) else cfg).
  assert (Hc1 : forall k, k <> "source-prefix" -> get P c1 k = get P cfg k).
  { intros k Hk. unfold c1. destruct (negb (truthy sp)); [| reflexivity].
    apply get_set_cmd_other. congruence. }
  destruct Hb as [Hb | Hb].
  - rewrite (absolutize_type_error P cwd "config-file" c1);
      [reflexivity |].
    rewrite Hc1 by discriminate. exact Hb.
  - destruct (absolutize_outcome P cwd "config-file" c1) as [-> | [c2 E]];
      [destruct P as [[] ? ?]; simpl; tauto | reflexivity |].
    rewrite E. cbv beta iota delta [bind].
    apply (absolutize_type_error P cwd "build-prefix" c2).
    destruct (absolutize_spec P cwd "config-file" c1 c2 E) as [Hother _].
    rewrite Hother, Hc1 by discriminate. exact Hb.
Qed.

Lemma bare_path_option_fails_witness :
  decode_argv linux ["--build-prefix"; "simulator"] new_config
  = Ok {| cmd_opts := [("build-prefix", VBool true)];
          extra_opts := ["simulator"];
          config_opts := None |}
  /\ (get linux {| cmd_opts := [("build-prefix", VBool true)];
                   extra_opts := ["simulator"];
                   config_opts := None |} "config-file" = Ok (VBool true)
      \/ get linux {| cmd_opts := [("build-prefix", VBool true)];
                      extra_opts := ["simulator"];
                      config_opts := None |} "build-prefix" = Ok (VBool true))
  /\ decode_args linux "/home/u/lima" ["--build-prefix"; "simulator"]
       new_config
     = Raise TypeError.
Proof.
  split; [reflexivity |]. split; [right; reflexivity |].
  apply (bare_path_option_fails linux "/home/u/lima"
           ["--build-prefix"; "simulator"] new_config
           {| cmd_opts := [("build-prefix", VBool true)];
              extra_opts := ["simulator"];
              config_opts := None |});
    [reflexivity | right; reflexivity].
Defined.





(** ** Where the walk ends *)

(** X25.  When changing to an absolute directory lands in it, a walk
    over the modules that returns has the process back in the directory
    it started from, whatever modules were entered on the way. *)
Theorem walk_returns_home (P : Platform) (w : World) (depth : nat)
  (cfg : Config) (submodules : option (list string)) (st st' : proc) :
  (forall s d r, isabs d = true -> chdir w s (VStr d) = Ok r -> r = d) ->
  isabs (cwd st) = true ->
  check_submodules P w depth cfg submodules st = (Ok tt, st') ->
  cwd st' = cwd st.
Proof.
  intros Habs Hst H. unfold check_submodules in H.
  apply iobind_ok in H. destruct H as (root & s1 & Hroot & H).
  unfold lift in Hroot. injection Hroot as _ <-.
  revert H. apply (keeps_ch_dir w Habs); assumption.
Qed.

Lemma lima_chdir_absolute (s : proc) (d r : string) :
  isabs d = true -> chdir lima_world s (VStr d) = Ok r -> r = d.
Proof.
  intros Hd H. simpl in H. injection H as <-.
  unfold path_join. unfold isabs in Hd. now rewrite Hd.
Qed.

Lemma walk_returns_home_witness :
  (forall s d r, isabs d = true -> chdir lima_world s (VStr d) = Ok r ->
                 r = d)
  /\ isabs (cwd start) = true
  /\ fst (check_submodules linux lima_world 10 git_cfg None start) = Ok tt
  /\ cwd (snd (check_submodules linux lima_world 10 git_cfg None start))
     = cwd start.
Proof.
  split; [exact lima_chdir_absolute |]. split; [reflexivity |].
  split; [reflexivity |].
  apply (walk_returns_home linux lima_world 10 git_cfg None start
           (snd (check_submodules linux lima_world 10 git_cfg None start))
           lima_chdir_absolute); reflexivity.
Defined.
